(** * Asteroids game (src/Main.cpp): shallow embedding and verified properties

    The C++ program is a single-threaded frame loop over three populations
    (player ship, projectiles, asteroids).  The embedding follows the source
    function by function:

    - [float] values are IEEE-754 binary32 numbers, modelled with the Standard
      Library's [spec_float] at precision 24 and maximal exponent 128, every
      operation being the correctly rounded one;
    - [int] values are modelled by [Z]; every integer the program manipulates
      (hit-points, damages, screen sizes) stays far inside the 32-bit range;
    - the containers [std::vector<...>] are lists, in iteration order;
    - mutation is explicit state passing; the [while] loop of the shooting
      block takes fuel;
    - library functions whose code is not part of the repository ([cosf],
      [sinf], [rand], raylib's [GetRandomValue], the texture loader, the
      keyboard) are parameters or per-frame inputs. *)

From Stdlib Require Import ZArith List Bool Lia.
From Stdlib Require Import Floats.SpecFloat.
Import ListNotations.

Local Open Scope Z_scope.

(** ** binary32 arithmetic *)

Module F32.

Definition prec : Z := 24.
Definition emax : Z := 128.

Definition float : Type := spec_float.

Definition add : float -> float -> float := SFadd prec emax.
Definition sub : float -> float -> float := SFsub prec emax.
Definition mul : float -> float -> float := SFmul prec emax.
Definition div : float -> float -> float := SFdiv prec emax.
Definition sqrtf : float -> float := SFsqrt prec emax.
Definition opp : float -> float := SFopp.

(** C++ comparisons; all four are false as soon as one side is NaN. *)
Definition lt (x y : float) : bool := SFltb x y.
Definition le (x y : float) : bool := SFleb x y.
Definition gt (x y : float) : bool := SFltb y x.
Definition ge (x y : float) : bool := SFleb y x.

(** Conversion [int -> float] (round to nearest even). *)
Definition of_int (z : Z) : float := binary_normalize prec emax z 0 false.

(** The float nearest to [m * 2^e]; used for literals. *)
Definition lit (m e : Z) : float := binary_normalize prec emax m e false.

Definition zero : float := S754_zero false.

(** [fmodf x y]: the remainder of the truncated division, exact, with the
    sign of [x] (C99 7.12.10.1, IEEE-754 behaviour on special values). *)
Definition fmodf (x y : float) : float :=
  match x, y with
  | S754_nan, _ | _, S754_nan => S754_nan
  | S754_infinity _, _ => S754_nan
  | _, S754_zero _ => S754_nan
  | S754_zero _, _ => x
  | S754_finite _ _ _, S754_infinity _ => x
  | S754_finite sx mx ex, S754_finite _ my ey =>
      let e := Z.min ex ey in
      let r := Z.rem (Z.pos mx * 2 ^ (ex - e)) (Z.pos my * 2 ^ (ey - e)) in
      let e' := fexp prec emax (Zdigits2 r + e) in
      match r * 2 ^ (e - e') with
      | Z.pos m => S754_finite sx m e'
      | _ => S754_zero sx
      end
  end.

(** [fminf]: the smaller argument, a NaN argument being ignored. *)
Definition fminf (x y : float) : float :=
  match x, y with
  | S754_nan, _ => y
  | _, S754_nan => x
  | _, _ => if SFltb y x then y else x
  end.

Definition is_finite (x : float) : bool :=
  match x with
  | S754_zero _ | S754_finite _ _ _ => true
  | _ => false
  end.

End F32.

Definition float : Type := F32.float.

(** ** raymath: [Vector2] and the four vector helpers the program calls *)

Record Vector2 : Type := mkVector2 { v2x : float; v2y : float }.

Definition Vector2Add (v1 v2 : Vector2) : Vector2 :=
  mkVector2 (F32.add (v2x v1) (v2x v2)) (F32.add (v2y v1) (v2y v2)).

Definition Vector2Subtract (v1 v2 : Vector2) : Vector2 :=
  mkVector2 (F32.sub (v2x v1) (v2x v2)) (F32.sub (v2y v1) (v2y v2)).

Definition Vector2Scale (v : Vector2) (scale : float) : Vector2 :=
  mkVector2 (F32.mul (v2x v) scale) (F32.mul (v2y v) scale).

Definition Vector2Distance (v1 v2 : Vector2) : float :=
  let dx := F32.sub (v2x v1) (v2x v2) in
  let dy := F32.sub (v2y v1) (v2y v2) in
  F32.sqrtf (F32.add (F32.mul dx dx) (F32.mul dy dy)).

Definition Vector2Normalize (v : Vector2) : Vector2 :=
  let length :=
    F32.sqrtf (F32.add (F32.mul (v2x v) (v2x v)) (F32.mul (v2y v) (v2y v))) in
  if F32.gt length F32.zero then
    let ilength := F32.div (F32.of_int 1) length in
    mkVector2 (F32.mul (v2x v) ilength) (F32.mul (v2y v) ilength)
  else mkVector2 F32.zero F32.zero.

(** raylib's [PI] macro, the float literal [3.14159265358979323846f]. *)
Definition PI : float := F32.lit 13176795 (-22).

(** ** Outcomes

    Two things can keep a piece of the frame from producing a state: a
    [switch] whose [default] branch falls off the end of a value-returning
    function (undefined behaviour, [Undefined]), and the fuel of the shooting
    loop running out ([OutOfFuel]). *)

Inductive result (A : Type) : Type :=
| Ok (a : A)
| Undefined
| OutOfFuel.

Arguments Ok {A} a.
Arguments Undefined {A}.
Arguments OutOfFuel {A}.

Definition bind {A B : Type} (r : result A) (k : A -> result B) : result B :=
  match r with
  | Ok a => k a
  | Undefined => Undefined
  | OutOfFuel => OutOfFuel
  end.

Notation "x <- r ;; k" := (bind r (fun x => k))
  (at level 61, r at next level, right associativity).

(** ** Components shared by the entities *)

Record TransformA : Type := mkTransformA { position : Vector2; rotation : float }.

Record Physics : Type := mkPhysics { velocity : Vector2; rotationSpeed : float }.

Inductive Size : Type := SMALL | MEDIUM | LARGE | GIGA.

(** The enumerator values [SMALL = 1, MEDIUM = 2, LARGE = 4, GIGA = 10]. *)
Definition Size_to_int (s : Size) : Z :=
  match s with
  | SMALL => 1
  | MEDIUM => 2
  | LARGE => 4
  | GIGA => 10
  end.

Record Renderer : Type := mkRenderer { screenW : Z; screenH : Z }.

Definition Width (r : Renderer) : Z := screenW r.
Definition Height (r : Renderer) : Z := screenH r.

(** ** Asteroids *)

Record Asteroid : Type := mkAsteroid {
  a_transform : TransformA;
  a_physics : Physics;
  a_size : Size;            (* render.size *)
  a_baseDamage : Z;
  a_hp : Z
}.

Definition Asteroid_GetPosition (a : Asteroid) : Vector2 := position (a_transform a).

Definition Asteroid_GetRadius (a : Asteroid) : float :=
  F32.mul (F32.of_int 16) (F32.of_int (Size_to_int (a_size a))).

Definition Asteroid_GetDamage (a : Asteroid) : Z :=
  a_baseDamage a * Size_to_int (a_size a).

Definition Asteroid_GetSize (a : Asteroid) : Z := Size_to_int (a_size a).

(** [Asteroid::GetMaxHP]; its [default] branch is for values outside the
    four enumerators, which [render.size] never takes. *)
Definition Asteroid_GetMaxHP (a : Asteroid) : Z :=
  match a_size a with
  | SMALL => 25
  | MEDIUM => 100
  | LARGE => 300
  | GIGA => 1000
  end.

Definition Asteroid_TakeDamage (a : Asteroid) (dmg : Z) : Asteroid :=
  mkAsteroid (a_transform a) (a_physics a) (a_size a) (a_baseDamage a) (a_hp a - dmg).

Definition Asteroid_IsDead (a : Asteroid) : bool := a_hp a <=? 0.

(** [Asteroid::Update]: the moved asteroid and the returned flag ([false]
    asks for removal). *)
Definition Asteroid_Update (r : Renderer) (a : Asteroid) (dt : float)
  : Asteroid * bool :=
  let pos := Vector2Add (position (a_transform a))
                        (Vector2Scale (velocity (a_physics a)) dt) in
  let rot := F32.add (rotation (a_transform a))
                     (F32.mul (rotationSpeed (a_physics a)) dt) in
  let a' := mkAsteroid (mkTransformA pos rot) (a_physics a) (a_size a)
                       (a_baseDamage a) (a_hp a) in
  let rad := Asteroid_GetRadius a' in
  if F32.lt (v2x pos) (F32.opp rad)
     || F32.gt (v2x pos) (F32.add (F32.of_int (Width r)) rad)
     || F32.lt (v2y pos) (F32.opp rad)
     || F32.gt (v2y pos) (F32.add (F32.of_int (Height r)) rad)
  then (a', false)
  else (a', true).

(** ** Random sources

    [rand()] and raylib's [GetRandomValue] are two independent generators
    outside the repository.  Each is a parameter of the model: the value
    returned by the [n]-th call.  The state records how many calls were
    made. *)

Record Rng : Type := mkRng { rand_calls : nat; grv_calls : nat }.

Module AsteroidShape.
Inductive t : Type := TRIANGLE | SQUARE | PENTAGON | GIGA | RANDOM.
End AsteroidShape.

Module WeaponType.
Inductive t : Type := LASER | BULLET | MINE | COUNT.

Definition to_int (w : t) : Z :=
  match w with
  | LASER => 0
  | BULLET => 1
  | MINE => 2
  | COUNT => 3
  end.

(** [static_cast<WeaponType>(i)]; an [i] outside the enumerators does not
    occur, since the only cast follows a reduction modulo [COUNT]. *)
Definition of_int (i : Z) : t :=
  match i with
  | 0 => LASER
  | 1 => BULLET
  | 2 => MINE
  | _ => COUNT
  end.
End WeaponType.

(** A concrete environment, used to instantiate the statements: [cosf] and
    [sinf] tabulated at the two angles the instances need (0, and -pi/2 as
    the float [-PI / 2], where the correctly rounded values are about
    -4.37e-8 and exactly -1), generators that always return 0 (respectively
    the lower bound), the [RAND_MAX] of glibc, and a texture 64 pixels
    high. *)
Module Sample.
Definition minus_half_pi : float := F32.opp (F32.div PI (F32.of_int 2)).
Definition cosf (x : float) : float :=
  if SFeqb x minus_half_pi then F32.lit (-12303662) (-48) else F32.of_int 1.
Definition sinf (x : float) : float :=
  if SFeqb x minus_half_pi then F32.of_int (-1) else F32.zero.
Definition rand_at (n : nat) : Z := 0.
Definition RAND_MAX : Z := 2147483647.
Definition GetRandomValue_at (n : nat) (min max : Z) : Z := min.
Definition texture_height : Z := 64.
End Sample.

Section Game.

(** [cosf] and [sinf] of the C library. *)
Variable cosf sinf : float -> float.

(** [rand_at n]: the result of the [n]-th call of [rand()];
    [RAND_MAX]: the platform's constant. *)
Variable rand_at : nat -> Z.
Variable RAND_MAX : Z.

(** [GetRandomValue_at n min max]: the result of the [n]-th call of
    raylib's [GetRandomValue], made with arguments [min] and [max]. *)
Variable GetRandomValue_at : nat -> Z -> Z -> Z.

(** Height of the texture [LoadTexture("tekstury/spaceship1.png")] returns. *)
Variable spaceship_texture_height : Z.

Definition rand (g : Rng) : Z * Rng :=
  (rand_at (rand_calls g), mkRng (S (rand_calls g)) (grv_calls g)).

Definition GetRandomValue (min max : Z) (g : Rng) : Z * Rng :=
  (GetRandomValue_at (grv_calls g) min max,
   mkRng (rand_calls g) (S (grv_calls g))).

(** [Utils::RandomFloat]:
    [min + static_cast<float>(rand()) / RAND_MAX * (max - min)]. *)
Definition RandomFloat (min max : float) (g : Rng) : float * Rng :=
  let '(r, g') := rand g in
  (F32.add min
     (F32.mul (F32.div (F32.of_int r) (F32.of_int RAND_MAX)) (F32.sub max min)),
   g').

Definition SPEED_MIN : float := F32.of_int 125.
Definition SPEED_MAX : float := F32.of_int 250.
Definition ROT_MIN : float := F32.of_int 50.
Definition ROT_MAX : float := F32.of_int 240.

(** [Asteroid::init], run on the object under construction [a]. *)
Definition Asteroid_init (a : Asteroid) (screenW screenH : Z) (g : Rng)
  : Asteroid * Rng :=
  let '(edge, g0) := GetRandomValue 0 3 g in
  let '(pos, g1) :=
    match edge with
    | 0 =>
        let '(rx, g1) := RandomFloat F32.zero (F32.of_int screenW) g0 in
        (mkVector2 rx (F32.opp (Asteroid_GetRadius a)), g1)
    | 1 =>
        let '(ry, g1) := RandomFloat F32.zero (F32.of_int screenH) g0 in
        (mkVector2 (F32.add (F32.of_int screenW) (Asteroid_GetRadius a)) ry, g1)
    | 2 =>
        let '(rx, g1) := RandomFloat F32.zero (F32.of_int screenW) g0 in
        (mkVector2 rx (F32.add (F32.of_int screenH) (Asteroid_GetRadius a)), g1)
    | _ =>
        let '(ry, g1) := RandomFloat F32.zero (F32.of_int screenH) g0 in
        (mkVector2 (F32.opp (Asteroid_GetRadius a)) ry, g1)
    end in
  (* aim towards the centre, with jitter *)
  let maxOff := F32.mul (F32.fminf (F32.of_int screenW) (F32.of_int screenH))
                        (F32.div (F32.of_int 1) (F32.of_int 10)) in
  let '(ang, g2) := RandomFloat F32.zero (F32.mul (F32.of_int 2) PI) g1 in
  let '(rad, g3) := RandomFloat F32.zero maxOff g2 in
  let center :=
    mkVector2
      (F32.add (F32.mul (F32.of_int screenW) (F32.lit 1 (-1)))
               (F32.mul (cosf ang) rad))
      (F32.add (F32.mul (F32.of_int screenH) (F32.lit 1 (-1)))
               (F32.mul (sinf ang) rad)) in
  let dir := Vector2Normalize (Vector2Subtract center pos) in
  let '(spd, g4) := RandomFloat SPEED_MIN SPEED_MAX g3 in
  let '(rs, g5) := RandomFloat ROT_MIN ROT_MAX g4 in
  let '(rot, g6) := RandomFloat F32.zero (F32.of_int 360) g5 in
  (mkAsteroid (mkTransformA pos rot) (mkPhysics (Vector2Scale dir spd) rs)
              (a_size a) (a_baseDamage a) (a_hp a),
   g6).

(** The base-class constructor [Asteroid(screenW, screenH)]: the members
    take their default initialisers ([render.size = SMALL],
    [baseDamage = 0], zeroed transform and physics; [hp] has none and is
    not read before a derived constructor assigns it, [0] stands for it),
    then [init] runs. *)
Definition Asteroid_ctor (screenW screenH : Z) (g : Rng) : Asteroid * Rng :=
  let zero2 := mkVector2 F32.zero F32.zero in
  Asteroid_init
    (mkAsteroid (mkTransformA zero2 F32.zero) (mkPhysics zero2 F32.zero)
                SMALL 0 0)
    screenW screenH g.

(** A derived constructor: the base constructor first, then the body
    [baseDamage = d; render.size = s; hp = GetMaxHP();]. *)
Definition derived_ctor (d : Z) (s : Size) (w h : Z) (g : Rng)
  : Asteroid * Rng :=
  let '(a, g') := Asteroid_ctor w h g in
  let a1 := mkAsteroid (a_transform a) (a_physics a) s d (a_hp a) in
  (mkAsteroid (a_transform a1) (a_physics a1) (a_size a1) (a_baseDamage a1)
              (Asteroid_GetMaxHP a1),
   g').

Definition TriangleAsteroid := derived_ctor 5 SMALL.
Definition SquareAsteroid := derived_ctor 10 MEDIUM.
Definition PentagonAsteroid := derived_ctor 15 LARGE.
Definition GigaAsteroid := derived_ctor 10 GIGA.

(** [MakeAsteroid]; in the [default] branch the recursive call at a
    concrete shape is the corresponding constructor. *)
Definition MakeAsteroid (w h : Z) (shape : AsteroidShape.t) (g : Rng)
  : Asteroid * Rng :=
  match shape with
  | AsteroidShape.TRIANGLE => TriangleAsteroid w h g
  | AsteroidShape.SQUARE => SquareAsteroid w h g
  | AsteroidShape.PENTAGON => PentagonAsteroid w h g
  | AsteroidShape.GIGA => GigaAsteroid w h g
  | AsteroidShape.RANDOM =>
      let '(randomShape, g') := GetRandomValue 0 99 g in
      if randomShape <? 45 then TriangleAsteroid w h g'
      else if randomShape <? 75 then SquareAsteroid w h g'
      else if randomShape <? 95 then PentagonAsteroid w h g'
      else GigaAsteroid w h g'
  end.

(** ** Projectiles *)

Record Projectile : Type := mkProjectile {
  p_transform : TransformA;
  p_physics : Physics;
  p_baseDamage : Z;
  p_type : WeaponType.t;
  p_life : float
}.

(** The constructor [Projectile(pos, vel, dmg, wt, rotation, time)]; the
    angular velocity keeps its default initialiser. *)
Definition Projectile_ctor (pos vel : Vector2) (dmg : Z) (wt : WeaponType.t)
    (rot time : float) : Projectile :=
  mkProjectile (mkTransformA pos rot) (mkPhysics vel F32.zero) dmg wt time.

(** [Projectile::Update]: the moved projectile and the returned flag
    ([true] asks for removal). *)
Definition Projectile_Update (r : Renderer) (p : Projectile) (dt : float)
  : Projectile * bool :=
  let pos := Vector2Add (position (p_transform p))
                        (Vector2Scale (velocity (p_physics p)) dt) in
  let life := F32.sub (p_life p) dt in
  let p' := mkProjectile (mkTransformA pos (rotation (p_transform p)))
                         (p_physics p) (p_baseDamage p) (p_type p) life in
  if F32.lt (v2x pos) F32.zero
     || F32.gt (v2x pos) (F32.of_int (Width r))
     || F32.lt (v2y pos) F32.zero
     || F32.gt (v2y pos) (F32.of_int (Height r))
  then (p', true)
  else if F32.le life F32.zero then (p', true)
  else (p', false).

Definition Projectile_GetPosition (p : Projectile) : Vector2 :=
  position (p_transform p).

(** [Projectile::GetRadius]; the [default] branch leaves the function
    without a [return]. *)
Definition Projectile_GetRadius (p : Projectile) : result float :=
  match p_type p with
  | WeaponType.LASER => Ok (F32.of_int 2)
  | WeaponType.BULLET => Ok (F32.of_int 5)
  | WeaponType.MINE => Ok (F32.of_int 10)
  | WeaponType.COUNT => Undefined
  end.

Definition Projectile_GetDamage (p : Projectile) : Z := p_baseDamage p.

(** [MakeProjectile]; its [cos] and [sin] are taken at float precision. *)
Definition MakeProjectile (wt : WeaponType.t) (pos : Vector2)
    (speed rot : float) : Projectile :=
  let vel := mkVector2 (F32.mul (cosf rot) speed) (F32.mul (sinf rot) speed) in
  match wt with
  | WeaponType.LASER => Projectile_ctor pos vel 17 wt rot (F32.of_int 10)
  | WeaponType.BULLET => Projectile_ctor pos vel 25 wt rot (F32.of_int 10)
  | _ => Projectile_ctor pos (mkVector2 F32.zero F32.zero) 150 wt rot
                         (F32.of_int 10)
  end.

(** ** The player ship

    [Ship] and its only subclass [PlayerShip] in one record. *)

Record PlayerShip : Type := mkPlayerShip {
  s_transform : TransformA;
  s_hp : Z;
  s_speed : float;
  s_rSpeed : float;
  s_alive : bool;
  fireRateLaser : float;
  fireRateBullet : float;
  fireRateMine : float;
  spacingLaser : float;
  spacingBullet : float;
  texture_height : Z;
  scale : float
}.

(** [Ship::Ship] followed by the body of [PlayerShip::PlayerShip]. *)
Definition PlayerShip_ctor (w h : Z) : PlayerShip :=
  mkPlayerShip
    (mkTransformA
       (mkVector2 (F32.mul (F32.of_int w) (F32.lit 1 (-1)))
                  (F32.mul (F32.of_int h) (F32.lit 1 (-1))))
       F32.zero)
    100 (F32.of_int 250) (F32.of_int 70) true
    (F32.of_int 18) (F32.of_int 12) (F32.of_int 2)
    (F32.of_int 40) (F32.of_int 20)
    spaceship_texture_height (F32.lit 1 (-2)).

Definition set_ship_transform (s : PlayerShip) (t : TransformA) : PlayerShip :=
  mkPlayerShip t (s_hp s) (s_speed s) (s_rSpeed s) (s_alive s)
    (fireRateLaser s) (fireRateBullet s) (fireRateMine s)
    (spacingLaser s) (spacingBullet s) (texture_height s) (scale s).

Definition set_ship_health (s : PlayerShip) (hp : Z) (alive : bool) : PlayerShip :=
  mkPlayerShip (s_transform s) hp (s_speed s) (s_rSpeed s) alive
    (fireRateLaser s) (fireRateBullet s) (fireRateMine s)
    (spacingLaser s) (spacingBullet s) (texture_height s) (scale s).

Definition Ship_TakeDamage (s : PlayerShip) (dmg : Z) : PlayerShip :=
  if negb (s_alive s) then s
  else
    let hp := s_hp s - dmg in
    set_ship_health s hp (if hp <=? 0 then false else s_alive s).

Definition Ship_IsAlive (s : PlayerShip) : bool := s_alive s.
Definition Ship_GetPosition (s : PlayerShip) : Vector2 := position (s_transform s).
Definition Ship_GetHP (s : PlayerShip) : Z := s_hp s.
Definition Ship_GetAngle (s : PlayerShip) : float := rotation (s_transform s).

(** [PlayerShip::GetRadius]: [(texture.height * scale) * 0.5f]. *)
Definition Ship_GetRadius (s : PlayerShip) : float :=
  F32.mul (F32.mul (F32.of_int (texture_height s)) (scale s)) (F32.lit 1 (-1)).

(** [Ship::GetFireRate]; the [default] branch leaves the function without
    a [return]. *)
Definition Ship_GetFireRate (s : PlayerShip) (wt : WeaponType.t) : result float :=
  match wt with
  | WeaponType.LASER => Ok (fireRateLaser s)
  | WeaponType.BULLET => Ok (fireRateBullet s)
  | WeaponType.MINE => Ok (fireRateMine s)
  | WeaponType.COUNT => Undefined
  end.

Definition Ship_GetSpacing (s : PlayerShip) (wt : WeaponType.t) : float :=
  match wt with
  | WeaponType.LASER => spacingLaser s
  | _ => spacingBullet s
  end.

(** What the keyboard and the clock report in one frame: [GetFrameTime],
    [IsKeyDown] for the held keys, [IsKeyPressed] for the others. *)
Record Input : Type := mkInput {
  dt : float;
  down_W : bool; down_S : bool; down_A : bool; down_D : bool;
  down_Q : bool; down_E : bool; down_SPACE : bool;
  pressed_R : bool; pressed_ONE : bool; pressed_TWO : bool;
  pressed_THREE : bool; pressed_FOUR : bool; pressed_FIVE : bool;
  pressed_TAB : bool
}.

(** [PlayerShip::Update]. *)
Definition PlayerShip_Update (s : PlayerShip) (i : Input) : PlayerShip :=
  let t := s_transform s in
  let step := F32.mul (s_speed s) (dt i) in
  let turn := F32.mul (s_rSpeed s) (dt i) in
  if s_alive s then
    let y1 := if down_W i then F32.sub (v2y (position t)) step else v2y (position t) in
    let y2 := if down_S i then F32.add y1 step else y1 in
    let x1 := if down_A i then F32.sub (v2x (position t)) step else v2x (position t) in
    let x2 := if down_D i then F32.add x1 step else x1 in
    let r1 := if down_Q i then F32.sub (rotation t) turn else rotation t in
    let r2 := if down_E i then F32.add r1 turn else r1 in
    set_ship_transform s (mkTransformA (mkVector2 x2 y2) r2)
  else
    set_ship_transform s
      (mkTransformA (mkVector2 (v2x (position t)) (F32.add (v2y (position t)) step))
                    (rotation t)).

(** ** The application: state of [Application::Run] *)

Record World : Type := mkWorld {
  player : PlayerShip;
  asteroids : list Asteroid;
  projectiles : list Projectile;
  currentShape : AsteroidShape.t;
  currentWeapon : WeaponType.t;
  spawnTimer : float;
  spawnInterval : float;
  shotTimer : float;
  C_WIDTH : Z;
  C_HEIGHT : Z;
  rng : Rng
}.

Definition MAX_AST : Z := 150.
Definition C_SPAWN_MIN : float := F32.lit 1 (-1).
Definition C_SPAWN_MAX : float := F32.of_int 3.

(** *** Restart logic (Main.cpp 520-527) *)
Definition restart_logic (i : Input) (w : World) : World :=
  if negb (Ship_IsAlive (player w)) && pressed_R i then
    let '(si, g) := RandomFloat C_SPAWN_MIN C_SPAWN_MAX (rng w) in
    mkWorld (PlayerShip_ctor (C_WIDTH w) (C_HEIGHT w)) [] []
            (currentShape w) (currentWeapon w) F32.zero si (shotTimer w)
            (C_WIDTH w) (C_HEIGHT w) g
  else w.

(** *** Asteroid shape switch (Main.cpp 528-543), in the order of the
    five tests *)
Definition shape_switch (i : Input) (sh : AsteroidShape.t) : AsteroidShape.t :=
  let s1 := if pressed_ONE i then AsteroidShape.TRIANGLE else sh in
  let s2 := if pressed_TWO i then AsteroidShape.SQUARE else s1 in
  let s3 := if pressed_THREE i then AsteroidShape.PENTAGON else s2 in
  let s4 := if pressed_FIVE i then AsteroidShape.RANDOM else s3 in
  if pressed_FOUR i then AsteroidShape.GIGA else s4.

(** *** Weapon switch (Main.cpp 545-548) *)
Definition weapon_switch (i : Input) (cw : WeaponType.t) : WeaponType.t :=
  if pressed_TAB i then
    WeaponType.of_int
      (Z.rem (WeaponType.to_int cw + 1) (WeaponType.to_int WeaponType.COUNT))
  else cw.

(** *** Shooting (Main.cpp 550-574) *)

(** The muzzle point and the heading of a shot, then the projectile. *)
Definition fire (pl : PlayerShip) (cw : WeaponType.t) (projSpeed : float)
  : Projectile :=
  let p := Ship_GetPosition pl in
  let rot_deg := F32.sub (Ship_GetAngle pl) (F32.of_int 90) in
  let rot_rad := F32.mul rot_deg (F32.div PI (F32.of_int 180)) in
  let px := F32.add (v2x p) (F32.mul (cosf rot_rad) (Ship_GetRadius pl)) in
  let py := F32.add (v2y p) (F32.mul (sinf rot_rad) (Ship_GetRadius pl)) in
  MakeProjectile cw (mkVector2 px py) projSpeed rot_rad.

(** The loop [while (shotTimer >= interval)]. *)
Fixpoint shoot_loop (fuel : nat) (pl : PlayerShip) (cw : WeaponType.t)
    (projSpeed interval timer : float) (projs : list Projectile)
  : result (float * list Projectile) :=
  if F32.ge timer interval then
    match fuel with
    | O => OutOfFuel
    | S fuel' =>
        shoot_loop fuel' pl cw projSpeed interval (F32.sub timer interval)
                   (projs ++ [fire pl cw projSpeed])
    end
  else Ok (timer, projs).

Definition shooting (fuel : nat) (i : Input) (pl : PlayerShip)
    (cw : WeaponType.t) (timer : float) (projs : list Projectile)
  : result (float * list Projectile) :=
  if Ship_IsAlive pl && down_SPACE i then
    let timer' := F32.add timer (dt i) in
    rate <- Ship_GetFireRate pl cw ;;
    let interval := F32.div (F32.of_int 1) rate in
    let projSpeed := F32.mul (Ship_GetSpacing pl cw) rate in
    shoot_loop fuel pl cw projSpeed interval timer' projs
  else
    rate <- Ship_GetFireRate pl cw ;;
    let maxInterval := F32.div (F32.of_int 1) rate in
    Ok (if F32.gt timer maxInterval then F32.fmodf timer maxInterval else timer,
        projs).

(** *** Spawn asteroids (Main.cpp 576-581) *)
Definition spawn (w : World) : World :=
  if F32.ge (spawnTimer w) (spawnInterval w)
     && (Z.of_nat (length (asteroids w)) <? MAX_AST)
  then
    let '(a, g1) := MakeAsteroid (C_WIDTH w) (C_HEIGHT w) (currentShape w) (rng w) in
    let '(si, g2) := RandomFloat C_SPAWN_MIN C_SPAWN_MAX g1 in
    mkWorld (player w) (asteroids w ++ [a]) (projectiles w)
            (currentShape w) (currentWeapon w) F32.zero si (shotTimer w)
            (C_WIDTH w) (C_HEIGHT w) g2
  else w.

(** *** Update projectiles (Main.cpp 583-590): [remove_if] on [Update] *)
Fixpoint update_projectiles (r : Renderer) (d : float) (ps : list Projectile)
  : list Projectile :=
  match ps with
  | [] => []
  | p :: ps' =>
      let '(p', gone) := Projectile_Update r p d in
      if gone then update_projectiles r d ps'
      else p' :: update_projectiles r d ps'
  end.

(** *** Projectile-asteroid collisions (Main.cpp 592-611) *)

(** The contact test: [dist] below the sum of the two [GetRadius()]. *)
Definition hits (p : Projectile) (a : Asteroid) : result bool :=
  let dist := Vector2Distance (Projectile_GetPosition p) (Asteroid_GetPosition a) in
  rp <- Projectile_GetRadius p ;;
  Ok (F32.lt dist (F32.add rp (Asteroid_GetRadius a))).

(** The inner loop for one projectile: [None] when no asteroid is
    touched ([removed] stays false), otherwise the asteroids left after
    the first contact. *)
Fixpoint scan_asteroids (p : Projectile) (asts : list Asteroid)
  : result (option (list Asteroid)) :=
  match asts with
  | [] => Ok None
  | a :: rest =>
      h <- hits p a ;;
      if h then
        let a' := Asteroid_TakeDamage a (Projectile_GetDamage p) in
        Ok (Some (if Asteroid_IsDead a' then rest else a' :: rest))
      else
        o <- scan_asteroids p rest ;;
        Ok (option_map (cons a) o)
  end.

(** The outer loop: the projectiles kept and the asteroids left. *)
Fixpoint projectile_asteroid_collisions (ps : list Projectile)
    (asts : list Asteroid) : result (list Projectile * list Asteroid) :=
  match ps with
  | [] => Ok ([], asts)
  | p :: ps' =>
      o <- scan_asteroids p asts ;;
      match o with
      | Some asts' => projectile_asteroid_collisions ps' asts'
      | None =>
          r <- projectile_asteroid_collisions ps' asts ;;
          Ok (p :: fst r, snd r)
      end
  end.

(** *** Asteroid-ship collisions (Main.cpp 613-632) *)

(** The contact test of the predicate: the distance between the centres
    below the sum of the radii. *)
Definition touches (pl : PlayerShip) (a : Asteroid) : bool :=
  F32.lt (Vector2Distance (Ship_GetPosition pl) (Asteroid_GetPosition a))
         (F32.add (Ship_GetRadius pl) (Asteroid_GetRadius a)).

(** The predicate [remove_collision]: the player and the asteroid after
    the call, and the returned mark. *)
Definition remove_collision (r : Renderer) (d : float) (pl : PlayerShip)
    (a : Asteroid) : PlayerShip * Asteroid * bool :=
  if Ship_IsAlive pl && touches pl a
  then (Ship_TakeDamage pl (Asteroid_GetDamage a), a, true)
  else
    let '(a', alive) := Asteroid_Update r a d in
    (pl, a', negb alive).

(** [remove_if] with that predicate, then [erase]. *)
Fixpoint asteroid_ship_collisions (r : Renderer) (d : float) (pl : PlayerShip)
    (asts : list Asteroid) : PlayerShip * list Asteroid :=
  match asts with
  | [] => (pl, [])
  | a :: rest =>
      let '(pl1, a', marked) := remove_collision r d pl a in
      let '(pl2, rest') := asteroid_ship_collisions r d pl1 rest in
      (pl2, if marked then rest' else a' :: rest')
  end.

(** The two passes of one frame, in the order of the source. *)
Definition collisions (r : Renderer) (d : float) (pl : PlayerShip)
    (ps : list Projectile) (asts : list Asteroid)
  : result (PlayerShip * list Projectile * list Asteroid) :=
  pa <- projectile_asteroid_collisions ps asts ;;
  let '(pl', asts') := asteroid_ship_collisions r d pl (snd pa) in
  Ok (pl', fst pa, asts').

(** *** One iteration of the frame loop (Main.cpp 513-689, without the
    drawing) *)
Definition frame (fuel : nat) (i : Input) (w : World) : result World :=
  let spawnTimer1 := F32.add (spawnTimer w) (dt i) in
  let player1 := PlayerShip_Update (player w) i in
  let w1 := restart_logic i
              (mkWorld player1 (asteroids w) (projectiles w) (currentShape w)
                       (currentWeapon w) spawnTimer1 (spawnInterval w)
                       (shotTimer w) (C_WIDTH w) (C_HEIGHT w) (rng w)) in
  let shape2 := shape_switch i (currentShape w1) in
  let weapon2 := weapon_switch i (currentWeapon w1) in
  sh <- shooting fuel i (player w1) weapon2 (shotTimer w1) (projectiles w1) ;;
  let w3 := spawn (mkWorld (player w1) (asteroids w1) (snd sh) shape2 weapon2
                           (spawnTimer w1) (spawnInterval w1) (fst sh)
                           (C_WIDTH w1) (C_HEIGHT w1) (rng w1)) in
  let r := mkRenderer (C_WIDTH w3) (C_HEIGHT w3) in
  let projs4 := update_projectiles r (dt i) (projectiles w3) in
  c <- collisions r (dt i) (player w3) projs4 (asteroids w3) ;;
  let '(pl5, projs5, asts5) := c in
  Ok (mkWorld pl5 asts5 projs5 (currentShape w3) (currentWeapon w3)
              (spawnTimer w3) (spawnInterval w3) (shotTimer w3)
              (C_WIDTH w3) (C_HEIGHT w3) (rng w3)).

(** The same iteration up to the two collision passes (Main.cpp 513-590):
    the state in which pass A starts, its projectiles already integrated. *)
Definition before_collisions (fuel : nat) (i : Input) (w : World)
  : result World :=
  let spawnTimer1 := F32.add (spawnTimer w) (dt i) in
  let player1 := PlayerShip_Update (player w) i in
  let w1 := restart_logic i
              (mkWorld player1 (asteroids w) (projectiles w) (currentShape w)
                       (currentWeapon w) spawnTimer1 (spawnInterval w)
                       (shotTimer w) (C_WIDTH w) (C_HEIGHT w) (rng w)) in
  let shape2 := shape_switch i (currentShape w1) in
  let weapon2 := weapon_switch i (currentWeapon w1) in
  sh <- shooting fuel i (player w1) weapon2 (shotTimer w1) (projectiles w1) ;;
  let w3 := spawn (mkWorld (player w1) (asteroids w1) (snd sh) shape2 weapon2
                           (spawnTimer w1) (spawnInterval w1) (fst sh)
                           (C_WIDTH w1) (C_HEIGHT w1) (rng w1)) in
  let r := mkRenderer (C_WIDTH w3) (C_HEIGHT w3) in
  Ok (mkWorld (player w3) (asteroids w3)
              (update_projectiles r (dt i) (projectiles w3))
              (currentShape w3) (currentWeapon w3)
              (spawnTimer w3) (spawnInterval w3) (shotTimer w3)
              (C_WIDTH w3) (C_HEIGHT w3) (rng w3)).

(** The state built by [Run] before the loop, for a monitor of [w] by [h]
    pixels. *)
Definition Run_init (w h : Z) : World :=
  let '(si, g) := RandomFloat C_SPAWN_MIN C_SPAWN_MAX (mkRng 0 0) in
  mkWorld (PlayerShip_ctor w h) [] [] AsteroidShape.RANDOM WeaponType.LASER
          F32.zero si F32.zero w h g.

(** The frames of a run, one input per frame. *)
Fixpoint Run_frames (fuel : nat) (inputs : list Input) (w : World)
  : result World :=
  match inputs with
  | [] => Ok w
  | i :: inputs' => w' <- frame fuel i w ;; Run_frames fuel inputs' w'
  end.

(** ** Vocabulary of the statements *)

(** A position outside the rectangle [xmin..xmax] by [ymin..ymax], with
    the comparisons of the program. *)
Definition outside_rect (xmin xmax ymin ymax : float) (pos : Vector2) : Prop :=
  F32.lt (v2x pos) xmin = true \/ F32.gt (v2x pos) xmax = true \/
  F32.lt (v2y pos) ymin = true \/ F32.gt (v2y pos) ymax = true.

(** The calls that reach a player ship between two restarts. *)
Inductive ship_op : Type :=
| OpUpdate (i : Input)
| OpTakeDamage (dmg : Z).

Definition apply_op (s : PlayerShip) (o : ship_op) : PlayerShip :=
  match o with
  | OpUpdate i => PlayerShip_Update s i
  | OpTakeDamage dmg => Ship_TakeDamage s dmg
  end.

Definition apply_ops (s : PlayerShip) (ops : list ship_op) : PlayerShip :=
  fold_left apply_op ops s.

(** An input with no key held or pressed and frame time [d]. *)
Definition idle_input (d : float) : Input :=
  mkInput d false false false false false false false
          false false false false false false false.

(** The same with the fire key held. *)
Definition fire_input (d : float) : Input :=
  mkInput d false false false false false false true
          false false false false false false false.



(** The settings [Ship::Ship] assigns. *)
Definition configured (s : PlayerShip) : Prop :=
  fireRateLaser s = F32.of_int 18 /\ fireRateBullet s = F32.of_int 12 /\
  fireRateMine s = F32.of_int 2 /\
  spacingLaser s = F32.of_int 40 /\ spacingBullet s = F32.of_int 20.


(** Entities at rest at a point with integer coordinates. *)
Definition at_point (x y : Z) : Vector2 :=
  mkVector2 (F32.of_int x) (F32.of_int y).

Definition still_asteroid (x y : Z) (s : Size) (d hp : Z) : Asteroid :=
  mkAsteroid (mkTransformA (at_point x y) F32.zero)
             (mkPhysics (at_point 0 0) F32.zero) s d hp.

Definition still_projectile (x y : Z) (dmg : Z) (wt : WeaponType.t) : Projectile :=
  Projectile_ctor (at_point x y) (at_point 0 0) dmg wt F32.zero (F32.of_int 10).




(** A frame time of 1/60 s. *)
Definition sixtieth : float := F32.div (F32.of_int 1) (F32.of_int 60).

(** An input with the weapon-cycle key pressed, the fire key held or not. *)
Definition tab_input (d : float) (space : bool) : Input :=
  mkInput d false false false false false false space
          false false false false false false true.


(** A state of the loop on a 900 by 900 monitor with the given player,
    asteroids and projectiles, three seconds away from the next spawn. *)
Definition arena (pl : PlayerShip) (asts : list Asteroid)
    (ps : list Projectile) : World :=
  mkWorld pl asts ps AsteroidShape.RANDOM WeaponType.LASER
          F32.zero (F32.of_int 3) F32.zero 900 900 (mkRng 0 0).

(** ** Vocabulary of the further properties *)

(** The base damage each derived constructor assigns next to its size. *)
Definition class_baseDamage (s : Size) : Z :=
  match s with
  | SMALL => 5
  | MEDIUM => 10
  | LARGE => 15
  | GIGA => 10
  end.

(** An asteroid as the constructors make it and the passes leave it. *)
Definition asteroid_ok (a : Asteroid) : Prop :=
  0 < a_hp a <= Asteroid_GetMaxHP a /\
  a_baseDamage a = class_baseDamage (a_size a).

(** A projectile as [MakeProjectile] makes it for one of the three weapons. *)
Definition projectile_ok (p : Projectile) : Prop :=
  match p_type p with
  | WeaponType.LASER => p_baseDamage p = 17
  | WeaponType.BULLET => p_baseDamage p = 25
  | WeaponType.MINE =>
      p_baseDamage p = 150 /\
      velocity (p_physics p) = mkVector2 F32.zero F32.zero
  | WeaponType.COUNT => False
  end.

(** A projectile that [Projectile::Update] would not report: none of its
    four bound tests and not its lifetime test holds. *)
Definition in_viewport (r : Renderer) (p : Projectile) : Prop :=
  let pos := position (p_transform p) in
  F32.lt (v2x pos) F32.zero = false /\
  F32.gt (v2x pos) (F32.of_int (Width r)) = false /\
  F32.lt (v2y pos) F32.zero = false /\
  F32.gt (v2y pos) (F32.of_int (Height r)) = false /\
  F32.le (p_life p) F32.zero = false.

(** An asteroid that [Asteroid::Update] would keep where it is now. *)
Definition in_margin (r : Renderer) (a : Asteroid) : Prop :=
  let pos := position (a_transform a) in
  let rad := Asteroid_GetRadius a in
  F32.lt (v2x pos) (F32.opp rad) = false /\
  F32.gt (v2x pos) (F32.add (F32.of_int (Width r)) rad) = false /\
  F32.lt (v2y pos) (F32.opp rad) = false /\
  F32.gt (v2y pos) (F32.add (F32.of_int (Height r)) rad) = false.

(** [derived R l l']: [l'] comes from [l] by erasing some elements and
    replacing each of the others by an [R]-related one, in the same order. *)
Inductive derived {A : Type} (R : A -> A -> Prop) : list A -> list A -> Prop :=
| derived_nil : derived R [] []
| derived_erase (a : A) (l l' : list A) :
    derived R l l' -> derived R (a :: l) l'
| derived_keep (a a' : A) (l l' : list A) :
    R a a' -> derived R l l' -> derived R (a :: l) (a' :: l').

(** The same asteroid with no more hit-points than before. *)
Definition worn (a a' : Asteroid) : Prop :=
  a_transform a' = a_transform a /\ a_physics a' = a_physics a /\
  a_size a' = a_size a /\ a_baseDamage a' = a_baseDamage a /\
  a_hp a' <= a_hp a.

(** What the frame loop keeps true of its state. *)
Definition world_ok (w : World) : Prop :=
  configured (player w) /\
  currentWeapon w <> WeaponType.COUNT /\
  s_alive (player w) = (0 <? s_hp (player w)) /\
  s_hp (player w) <= 100 /\
  Forall asteroid_ok (asteroids w) /\
  (length (asteroids w) <= 150)%nat /\
  Forall projectile_ok (projectiles w).

(** The asteroids of a list, integrated and culled, with no player in
    reach. *)
Fixpoint integrate_asteroids (r : Renderer) (d : float) (asts : list Asteroid)
  : list Asteroid :=
  match asts with
  | [] => []
  | a :: rest =>
      if snd (Asteroid_Update r a d)
      then fst (Asteroid_Update r a d) :: integrate_asteroids r d rest
      else integrate_asteroids r d rest
  end.

(** The class [MakeAsteroid] picks for a draw in RANDOM mode. *)
Definition class_of_draw (randomShape : Z) : Size :=
  if randomShape <? 45 then SMALL
  else if randomShape <? 75 then MEDIUM
  else if randomShape <? 95 then LARGE
  else GIGA.

(** The class of a concrete shape, none for RANDOM. *)
Definition class_of_shape (shape : AsteroidShape.t) : option Size :=
  match shape with
  | AsteroidShape.TRIANGLE => Some SMALL
  | AsteroidShape.SQUARE => Some MEDIUM
  | AsteroidShape.PENTAGON => Some LARGE
  | AsteroidShape.GIGA => Some GIGA
  | AsteroidShape.RANDOM => None
  end.

(** The contact damage of each size class. *)
Definition class_damage (s : Size) : Z :=
  match s with
  | SMALL => 5
  | MEDIUM => 20
  | LARGE => 60
  | GIGA => 100
  end.

(** The input [i] with the restart key not pressed. *)
Definition without_R (i : Input) : Input :=
  mkInput (dt i) (down_W i) (down_S i) (down_A i) (down_D i) (down_Q i)
          (down_E i) (down_SPACE i) false (pressed_ONE i) (pressed_TWO i)
          (pressed_THREE i) (pressed_FOUR i) (pressed_FIVE i) (pressed_TAB i).

(** The input [i] with no movement, rotation or fire key held. *)
Definition mode_keys_only (i : Input) : Input :=
  mkInput (dt i) false false false false false false false
          (pressed_R i) (pressed_ONE i) (pressed_TWO i)
          (pressed_THREE i) (pressed_FOUR i) (pressed_FIVE i) (pressed_TAB i).

(** The world [w] with another player. *)
Definition with_player (w : World) (pl : PlayerShip) : World :=
  mkWorld pl (asteroids w) (projectiles w) (currentShape w) (currentWeapon w)
          (spawnTimer w) (spawnInterval w) (shotTimer w)
          (C_WIDTH w) (C_HEIGHT w) (rng w).

(** An input with the restart key pressed, the fire key held or not. *)
Definition restart_input (d : float) (space : bool) : Input :=
  mkInput d false false false false false false space
          true false false false false false false.

(** An input with every movement and rotation key and the fire key held. *)
Definition busy_input (d : float) : Input :=
  mkInput d true true true true true true true
          false false false false false false false.

(** Two frames: one second idle, then 1/18 s with the fire key held. *)
Definition sample_inputs : list Input :=
  [idle_input (F32.of_int 1);
   fire_input (F32.div (F32.of_int 1) (F32.of_int 18))].

(** ** Collision pass A *)

Lemma scan_asteroids_no_contact (p : Projectile) (asts : list Asteroid) :
  Forall (fun b => hits p b = Ok false) asts ->
  scan_asteroids p asts = Ok None.
Proof.
  induction 1 as [| b asts Hb _ IH]; simpl.
  - reflexivity.
  - rewrite Hb; simpl. rewrite IH. reflexivity.
Qed.

Lemma scan_asteroids_first_contact (p : Projectile) (pre post : list Asteroid)
    (a : Asteroid) :
  Forall (fun b => hits p b = Ok false) pre ->
  hits p a = Ok true ->
  scan_asteroids p (pre ++ a :: post) =
  Ok (Some (pre ++ (if a_hp a - Projectile_GetDamage p <=? 0 then post
                    else Asteroid_TakeDamage a (Projectile_GetDamage p) :: post))).
Proof.
  intros Hpre Ha.
  induction Hpre as [| b pre Hb _ IH]; simpl.
  - rewrite Ha; simpl. reflexivity.
  - rewrite Hb; simpl. rewrite IH; simpl. reflexivity.
Qed.

Lemma pass_A_keeps_projectile (p : Projectile) (ps : list Projectile)
    (asts : list Asteroid) :
  Forall (fun b => hits p b = Ok false) asts ->
  projectile_asteroid_collisions (p :: ps) asts =
  (r <- projectile_asteroid_collisions ps asts ;; Ok (p :: fst r, snd r)).
Proof.
  intros H. simpl. rewrite (scan_asteroids_no_contact p asts H). reflexivity.
Qed.

Lemma pass_A_app (ps1 ps2 : list Projectile) :
  forall asts,
    projectile_asteroid_collisions (ps1 ++ ps2) asts =
    (r1 <- projectile_asteroid_collisions ps1 asts ;;
     r2 <- projectile_asteroid_collisions ps2 (snd r1) ;;
     Ok (fst r1 ++ fst r2, snd r2)).
Proof.
  induction ps1 as [| p ps1 IH]; intros asts; simpl.
  - destruct (projectile_asteroid_collisions ps2 asts) as [[k a] | |];
      reflexivity.
  - destruct (scan_asteroids p asts) as [[asts' |] | |]; simpl;
      try reflexivity.
    + apply IH.
    + rewrite IH.
      destruct (projectile_asteroid_collisions ps1 asts) as [[k1 a1] | |];
        simpl; try reflexivity.
      destruct (projectile_asteroid_collisions ps2 a1) as [[k2 a2] | |];
        reflexivity.
Qed.

(** C1.  In pass A, a projectile [p] of damage D meets the asteroids in
    iteration order; the first one it touches ([a], of hit-points H, the
    asteroids [pre] before it being untouched) takes the damage and has
    H - D hit-points, is erased exactly when H - D <= 0, and the
    projectile is erased in both cases: the pass continues with the other
    projectiles [ps] only.  The asteroids [post] after the contact are not
    looked at for [p]: they come out as they went in, whatever their
    position. *)
Theorem pass_A_first_contact (p : Projectile) (ps : list Projectile)
    (pre post : list Asteroid) (a : Asteroid) :
  Forall (fun b => hits p b = Ok false) pre ->
  hits p a = Ok true ->
  let D := Projectile_GetDamage p in
  let H := a_hp a in
  let a' := Asteroid_TakeDamage a D in
  a_hp a' = H - D /\
  (Asteroid_IsDead a' = true <-> H - D <= 0) /\
  scan_asteroids p (pre ++ a :: post) =
    Ok (Some (pre ++ (if Asteroid_IsDead a' then post else a' :: post))) /\
  projectile_asteroid_collisions (p :: ps) (pre ++ a :: post) =
    projectile_asteroid_collisions ps
      (pre ++ (if Asteroid_IsDead a' then post else a' :: post)).
Proof.
  intros Hpre Ha D H a'.
  assert (Hscan := scan_asteroids_first_contact p pre post a Hpre Ha).
  repeat split.
  - unfold Asteroid_IsDead; simpl. apply Z.leb_le.
  - unfold Asteroid_IsDead; simpl. apply Z.leb_le.
  - exact Hscan.
  - simpl projectile_asteroid_collisions at 1.
    rewrite Hscan. reflexivity.
Qed.

(** ** Collision pass B *)

Lemma remove_collision_contact (r : Renderer) (d : float) (pl : PlayerShip)
    (a : Asteroid) :
  Ship_IsAlive pl = true -> touches pl a = true ->
  remove_collision r d pl a = (Ship_TakeDamage pl (Asteroid_GetDamage a), a, true).
Proof.
  intros Halive Htouch. unfold remove_collision.
  rewrite Halive, Htouch. reflexivity.
Qed.

Lemma remove_collision_no_contact (r : Renderer) (d : float) (pl : PlayerShip)
    (a : Asteroid) :
  Ship_IsAlive pl = false \/ touches pl a = false ->
  remove_collision r d pl a =
  (pl, fst (Asteroid_Update r a d), negb (snd (Asteroid_Update r a d))).
Proof.
  intros H. unfold remove_collision.
  replace (Ship_IsAlive pl && touches pl a) with false.
  - destruct (Asteroid_Update r a d); reflexivity.
  - destruct H as [H | H]; rewrite H; [reflexivity | apply eq_sym, andb_false_r].
Qed.

Lemma Asteroid_Update_flag (r : Renderer) (a : Asteroid) (d : float) :
  let pos := position (a_transform (fst (Asteroid_Update r a d))) in
  let rad := Asteroid_GetRadius a in
  snd (Asteroid_Update r a d) = false <->
  outside_rect (F32.opp rad) (F32.add (F32.of_int (Width r)) rad)
               (F32.opp rad) (F32.add (F32.of_int (Height r)) rad) pos.
Proof.
  unfold Asteroid_Update, outside_rect, Asteroid_GetRadius; simpl.
  match goal with
  | |- context [if ?c then _ else _] => destruct c eqn:Hc
  end; simpl.
  - split; [intros _ | reflexivity].
    repeat (apply orb_true_iff in Hc; destruct Hc as [Hc | Hc]); auto.
  - split; [discriminate |].
    repeat (apply orb_false_iff in Hc; destruct Hc as [Hc ?]).
    intros [Hout | [Hout | [Hout | Hout]]]; congruence.
Qed.


(** ** Order of the two passes *)

(** Within the two passes, a projectile that destroys an asteroid takes
    it out before pass B starts. *)
Lemma collisions_skip_destroyed (r : Renderer) (d : float)
    (pl : PlayerShip) (ps1 : list Projectile) (p : Projectile)
    (ps2 kept1 : list Projectile) (asts0 pre post : list Asteroid)
    (a : Asteroid) :
  projectile_asteroid_collisions ps1 asts0 = Ok (kept1, pre ++ a :: post) ->
  Forall (fun b => hits p b = Ok false) pre ->
  hits p a = Ok true ->
  a_hp a - Projectile_GetDamage p <= 0 ->
  collisions r d pl (ps1 ++ p :: ps2) asts0 =
  (c <- collisions r d pl ps2 (pre ++ post) ;;
   Ok (fst (fst c), kept1 ++ snd (fst c), snd c)).
Proof.
  intros H1 Hpre Ha Hdead. unfold collisions.
  rewrite pass_A_app, H1. cbn [bind fst snd].
  simpl projectile_asteroid_collisions at 1.
  rewrite (scan_asteroids_first_contact p pre post a Hpre Ha).
  apply Z.leb_le in Hdead. rewrite Hdead. cbn [bind].
  destruct (projectile_asteroid_collisions ps2 (pre ++ post)) as [[k2 a2] | |];
    cbn [bind fst snd]; try reflexivity.
  destruct (asteroid_ship_collisions r d pl a2). reflexivity.
Qed.

(** A frame is its first part followed by the two passes. *)
Lemma frame_passes (fuel : nat) (i : Input) (w : World) :
  frame fuel i w =
  (w4 <- before_collisions fuel i w ;;
   c <- collisions (mkRenderer (C_WIDTH w4) (C_HEIGHT w4)) (dt i)
                   (player w4) (projectiles w4) (asteroids w4) ;;
   Ok (mkWorld (fst (fst c)) (snd c) (snd (fst c))
               (currentShape w4) (currentWeapon w4)
               (spawnTimer w4) (spawnInterval w4) (shotTimer w4)
               (C_WIDTH w4) (C_HEIGHT w4) (rng w4))).
Proof.
  unfold frame, before_collisions.
  set (w1 := restart_logic i _).
  destruct (shooting fuel i (player w1) (weapon_switch i (currentWeapon w1))
              (shotTimer w1) (projectiles w1)) as [sh | |];
    cbn [bind]; try reflexivity.
  set (w3 := spawn _). cbn [player asteroids projectiles C_WIDTH C_HEIGHT
                            currentShape currentWeapon spawnTimer
                            spawnInterval shotTimer rng].
  destruct (collisions (mkRenderer (C_WIDTH w3) (C_HEIGHT w3)) (dt i) (player w3)
              (update_projectiles (mkRenderer (C_WIDTH w3) (C_HEIGHT w3)) (dt i)
                 (projectiles w3)) (asteroids w3)) as [[[pl5 projs5] asts5] | |];
    reflexivity.
Qed.

(** What pass A does to an asteroid leaves every property that does not
    read the hit-points. *)
Lemma scan_asteroids_Forall (P : Asteroid -> Prop) (p : Projectile) :
  (forall b dmg, P b -> P (Asteroid_TakeDamage b dmg)) ->
  forall asts asts',
    scan_asteroids p asts = Ok (Some asts') -> Forall P asts -> Forall P asts'.
Proof.
  intros HP. induction asts as [| b rest IH]; intros asts' H Hall; simpl in H.
  - discriminate.
  - inversion Hall as [| b0 l0 Hb Hrest]; subst.
    destruct (hits p b) as [h | |]; simpl in H; try discriminate.
    destruct h.
    + inversion H; subst; clear H.
      destruct (Asteroid_IsDead (Asteroid_TakeDamage b (Projectile_GetDamage p)));
        [exact Hrest | constructor; [apply HP, Hb | exact Hrest]].
    + destruct (scan_asteroids p rest) as [[l |] | |]; simpl in H;
        try discriminate.
      inversion H; subst; clear H.
      constructor; [exact Hb | apply IH; [reflexivity | exact Hrest]].
Qed.

Lemma pass_A_Forall (P : Asteroid -> Prop) :
  (forall b dmg, P b -> P (Asteroid_TakeDamage b dmg)) ->
  forall ps asts kept asts',
    projectile_asteroid_collisions ps asts = Ok (kept, asts') ->
    Forall P asts -> Forall P asts'.
Proof.
  intros HP. induction ps as [| p ps IH]; intros asts kept asts' H Hall;
    simpl in H.
  - inversion H; subst. exact Hall.
  - destruct (scan_asteroids p asts) as [[l |] | |] eqn:E; simpl in H;
      try discriminate.
    + apply (IH l kept asts' H).
      apply (scan_asteroids_Forall P p HP asts l E Hall).
    + destruct (projectile_asteroid_collisions ps asts) as [[k l] | |] eqn:E2;
        simpl in H; try discriminate.
      inversion H; subst; clear H.
      apply (IH asts k asts' E2 Hall).
Qed.

(** Pass B with no asteroid in reach of the player leaves the player as
    it is. *)
Lemma pass_B_out_of_reach (r : Renderer) (d : float) (pl : PlayerShip)
    (asts : list Asteroid) :
  Forall (fun b => touches pl b = false) asts ->
  fst (asteroid_ship_collisions r d pl asts) = pl.
Proof.
  induction 1 as [| b rest Hb _ IH]; simpl.
  - reflexivity.
  - rewrite (remove_collision_no_contact r d pl b (or_intror Hb)).
    destruct (asteroid_ship_collisions r d pl rest) as [pl2 rest'].
    simpl in *. exact IH.
Qed.

(** C3.  Every frame resolves projectiles against asteroids first and
    asteroids against the player second, on the asteroids the first pass
    left.  Take a frame that completes, and the state [w4] in which its
    collision passes start.  Whenever, in pass A of that frame, a projectile
    [p] destroys an asteroid [a] (the projectiles [ps1] before [p] having
    left the asteroids [pre ++ a :: post] and kept [kept1], and [a] being the
    first asteroid [p] touches), the frame ends with the player and the
    asteroids that pass B computes from what the remaining projectiles [ps2]
    leave of [pre ++ post]: [a] is not among the asteroids pass B meets.  In
    particular, if no other asteroid is in reach of the player, the player
    ends the frame as it entered the passes, even when [a] overlaps it. *)
Theorem destroyed_asteroid_spares_player (fuel : nat) (i : Input)
    (w w4 w' : World) (ps1 : list Projectile) (p : Projectile)
    (ps2 kept1 : list Projectile) (pre post : list Asteroid) (a : Asteroid) :
  frame fuel i w = Ok w' ->
  before_collisions fuel i w = Ok w4 ->
  projectiles w4 = ps1 ++ p :: ps2 ->
  projectile_asteroid_collisions ps1 (asteroids w4) =
    Ok (kept1, pre ++ a :: post) ->
  Forall (fun b => hits p b = Ok false) pre ->
  hits p a = Ok true ->
  a_hp a - Projectile_GetDamage p <= 0 ->
  let r := mkRenderer (C_WIDTH w4) (C_HEIGHT w4) in
  exists kept2 asts2,
    projectile_asteroid_collisions ps2 (pre ++ post) = Ok (kept2, asts2) /\
    projectiles w' = kept1 ++ kept2 /\
    asteroid_ship_collisions r (dt i) (player w4) asts2 =
      (player w', asteroids w') /\
    (Forall (fun b => touches (player w4) b = false) (pre ++ post) ->
     player w' = player w4).
Proof.
  intros Hf Hb Hps H1 Hpre Ha Hdead r.
  rewrite frame_passes, Hb in Hf. cbn [bind] in Hf.
  rewrite Hps in Hf.
  rewrite (collisions_skip_destroyed _ _ _ ps1 p ps2 kept1 _ pre post a
             H1 Hpre Ha Hdead) in Hf.
  unfold collisions in Hf.
  destruct (projectile_asteroid_collisions ps2 (pre ++ post))
    as [[kept2 asts2] | |] eqn:E2; cbn [bind fst snd] in Hf; try discriminate.
  fold r in Hf.
  destruct (asteroid_ship_collisions r (dt i) (player w4) asts2)
    as [pl5 asts5] eqn:EB.
  cbn [bind fst snd] in Hf. injection Hf as Hf. rewrite <- Hf.
  exists kept2, asts2. cbn [player projectiles asteroids].
  split; [reflexivity | split; [reflexivity | split; [exact EB |]]].
  intros Hfar.
  assert (Hfar2 : Forall (fun b => touches (player w4) b = false) asts2).
  { exact (pass_A_Forall (fun b => touches (player w4) b = false)
             (fun b dmg Hb0 => Hb0) ps2 (pre ++ post) kept2 asts2 E2 Hfar). }
  assert (K := pass_B_out_of_reach r (dt i) (player w4) asts2 Hfar2).
  rewrite EB in K. exact K.
Qed.

(** ** The player's alive flag *)

Lemma PlayerShip_Update_alive (s : PlayerShip) (i : Input) :
  s_alive (PlayerShip_Update s i) = s_alive s.
Proof.
  unfold PlayerShip_Update. destruct (s_alive s) eqn:E; simpl; exact E.
Qed.

Lemma Ship_TakeDamage_dead (s : PlayerShip) (dmg : Z) :
  s_alive s = false -> Ship_TakeDamage s dmg = s.
Proof.
  intros H. unfold Ship_TakeDamage. rewrite H. reflexivity.
Qed.

Lemma apply_ops_dead (ops : list ship_op) :
  forall s, s_alive s = false -> s_alive (apply_ops s ops) = false.
Proof.
  unfold apply_ops.
  induction ops as [| o ops IH]; intros s H; simpl.
  - exact H.
  - apply IH. destruct o as [i | dmg]; simpl.
    + rewrite PlayerShip_Update_alive. exact H.
    + rewrite Ship_TakeDamage_dead; assumption.
Qed.

Lemma pass_B_dead_player (r : Renderer) (d : float) (asts : list Asteroid) :
  forall pl, s_alive pl = false ->
  fst (asteroid_ship_collisions r d pl asts) = pl.
Proof.
  induction asts as [| a rest IH]; intros pl H; simpl.
  - reflexivity.
  - rewrite (remove_collision_no_contact r d pl a (or_introl H)).
    specialize (IH pl H).
    destruct (asteroid_ship_collisions r d pl rest). exact IH.
Qed.

Lemma spawn_player (w : World) : player (spawn w) = player w.
Proof.
  unfold spawn.
  destruct (F32.ge (spawnTimer w) (spawnInterval w)
            && (Z.of_nat (length (asteroids w)) <? MAX_AST)); [| reflexivity].
  destruct (MakeAsteroid (C_WIDTH w) (C_HEIGHT w) (currentShape w) (rng w)) as [a g1].
  destruct (RandomFloat C_SPAWN_MIN C_SPAWN_MAX g1). reflexivity.
Qed.

Lemma frame_player (fuel : nat) (i : Input) (w w' : World) :
  frame fuel i w = Ok w' ->
  exists r asts,
    player w' =
    fst (asteroid_ship_collisions r (dt i)
           (player (restart_logic i
              (mkWorld (PlayerShip_Update (player w) i) (asteroids w)
                 (projectiles w) (currentShape w) (currentWeapon w)
                 (F32.add (spawnTimer w) (dt i)) (spawnInterval w)
                 (shotTimer w) (C_WIDTH w) (C_HEIGHT w) (rng w)))) asts).
Proof.
  unfold frame.
  set (w1 := restart_logic i _).
  destruct (shooting fuel i (player w1) (weapon_switch i (currentWeapon w1))
              (shotTimer w1) (projectiles w1)) as [sh | |]; simpl; try discriminate.
  set (w3 := spawn _).
  assert (Hp : player w3 = player w1)
    by (unfold w3; rewrite spawn_player; reflexivity).
  unfold collisions.
  destruct (projectile_asteroid_collisions
              (update_projectiles (mkRenderer (C_WIDTH w3) (C_HEIGHT w3)) (dt i)
                 (projectiles w3)) (asteroids w3)) as [pa | |];
    simpl; try discriminate.
  destruct (asteroid_ship_collisions (mkRenderer (C_WIDTH w3) (C_HEIGHT w3))
              (dt i) (player w3) (snd pa)) as [pl' asts'] eqn:E.
  simpl. intros H; inversion H; subst; clear H. simpl.
  exists (mkRenderer (C_WIDTH w3) (C_HEIGHT w3)), (snd pa).
  rewrite <- Hp, E. reflexivity.
Qed.

(** C4.  [Ship::TakeDamage] does nothing to a ship that is not alive; on
    a live ship it subtracts the damage and clears the alive flag exactly
    when the hit-points are then at most 0.  A ship that is not alive
    stays so under every sequence of [Update] and [TakeDamage] calls, and
    through every frame in which restart is not pressed.  The restart
    logic, for a dead player with the restart key pressed, installs a
    newly constructed ship, which is alive with 100 hit-points. *)
Theorem dead_player_stays_dead :
  (forall s dmg, s_alive s = false -> Ship_TakeDamage s dmg = s) /\
  (forall s dmg, s_alive s = true ->
     Ship_TakeDamage s dmg =
     set_ship_health s (s_hp s - dmg) (negb (s_hp s - dmg <=? 0))) /\
  (forall s ops, s_alive s = false -> s_alive (apply_ops s ops) = false) /\
  (forall fuel i w w',
     s_alive (player w) = false -> pressed_R i = false ->
     frame fuel i w = Ok w' -> s_alive (player w') = false) /\
  (forall i w,
     s_alive (player w) = false -> pressed_R i = true ->
     player (restart_logic i w) = PlayerShip_ctor (C_WIDTH w) (C_HEIGHT w) /\
     s_alive (player (restart_logic i w)) = true /\
     s_hp (player (restart_logic i w)) = 100).
Proof.
  repeat apply conj.
  - exact Ship_TakeDamage_dead.
  - intros s dmg H. unfold Ship_TakeDamage. rewrite H. simpl.
    destruct (s_hp s - dmg <=? 0); reflexivity.
  - intros s ops. apply apply_ops_dead.
  - intros fuel i w w' Hdead HR Hframe.
    destruct (frame_player fuel i w w' Hframe) as (r & asts & Hpl).
    rewrite Hpl.
    unfold restart_logic; simpl. rewrite HR, andb_false_r.
    rewrite pass_B_dead_player; simpl;
      rewrite PlayerShip_Update_alive; exact Hdead.
  - intros i w Hdead HR. unfold restart_logic, Ship_IsAlive.
    rewrite Hdead, HR. simpl.
    destruct (RandomFloat C_SPAWN_MIN C_SPAWN_MAX (rng w)).
    repeat split.
Qed.

(** ** Culling *)

(** C5.  [Asteroid::Update] moves the position by velocity * dt and the
    rotation by rotationSpeed * dt, and asks for removal exactly when the
    new position is outside the viewport widened by the asteroid's radius
    on each side.  [Projectile::Update] moves the position, lowers the
    lifetime by dt, and asks for removal exactly when the lifetime is then
    at most 0 or the new position is outside the viewport itself. *)
Theorem culling_rules (r : Renderer) (d : float) :
  (forall a : Asteroid,
     let a' := fst (Asteroid_Update r a d) in
     let rad := Asteroid_GetRadius a in
     position (a_transform a') =
       Vector2Add (position (a_transform a))
                  (Vector2Scale (velocity (a_physics a)) d) /\
     rotation (a_transform a') =
       F32.add (rotation (a_transform a))
               (F32.mul (rotationSpeed (a_physics a)) d) /\
     (snd (Asteroid_Update r a d) = false <->
      outside_rect (F32.opp rad) (F32.add (F32.of_int (Width r)) rad)
                   (F32.opp rad) (F32.add (F32.of_int (Height r)) rad)
                   (position (a_transform a')))) /\
  (forall p : Projectile,
     let p' := fst (Projectile_Update r p d) in
     position (p_transform p') =
       Vector2Add (position (p_transform p))
                  (Vector2Scale (velocity (p_physics p)) d) /\
     p_life p' = F32.sub (p_life p) d /\
     (snd (Projectile_Update r p d) = true <->
      F32.le (p_life p') F32.zero = true \/
      outside_rect F32.zero (F32.of_int (Width r))
                   F32.zero (F32.of_int (Height r))
                   (position (p_transform p')))).
Proof.
  split.
  - intros a a' rad. split; [| split].
    + unfold a', Asteroid_Update.
      match goal with
      | |- context [if ?c then _ else _] => destruct c
      end; reflexivity.
    + unfold a', Asteroid_Update.
      match goal with
      | |- context [if ?c then _ else _] => destruct c
      end; reflexivity.
    + apply Asteroid_Update_flag.
  - intros p p'. unfold p', Projectile_Update, outside_rect.
    set (pos := Vector2Add _ _). set (life := F32.sub _ _).
    destruct (F32.lt (v2x pos) F32.zero
              || F32.gt (v2x pos) (F32.of_int (Width r))
              || F32.lt (v2y pos) F32.zero
              || F32.gt (v2y pos) (F32.of_int (Height r))) eqn:Hc.
    + cbn [fst snd p_life p_transform position].
      split; [reflexivity | split; [reflexivity |]].
      split; [intros _ | reflexivity]. right.
      repeat (apply orb_true_iff in Hc; destruct Hc as [Hc | Hc]); auto.
    + repeat (apply orb_false_iff in Hc; destruct Hc as [Hc ?]).
      destruct (F32.le life F32.zero) eqn:Hl;
        cbn [fst snd p_life p_transform position];
        (split; [reflexivity | split; [reflexivity |]]).
      * split; [intros _; left; exact Hl | reflexivity].
      * split; [discriminate |].
        intros [Hx | [Hx | [Hx | [Hx | Hx]]]]; congruence.
Qed.

(** ** Asteroid classes: spawn position and contact damage *)

Lemma derived_ctor_fields (d : Z) (s : Size) (w h : Z) (g : Rng) :
  let a := fst (derived_ctor d s w h g) in
  a_transform a = a_transform (fst (Asteroid_ctor w h g)) /\
  a_size a = s /\ a_baseDamage a = d /\
  a_hp a = match s with SMALL => 25 | MEDIUM => 100 | LARGE => 300 | GIGA => 1000 end.
Proof.
  unfold derived_ctor. destruct (Asteroid_ctor w h g) as [a g']. simpl.
  repeat split.
Qed.

(** Where [init] puts the asteroid under construction: on the edge drawn
    by [GetRandomValue(0, 3)], pushed outward by the radius the object has
    at that moment. *)
Lemma Asteroid_init_position (a : Asteroid) (w h : Z) (g : Rng) :
  let pos := position (a_transform (fst (Asteroid_init a w h g))) in
  let rad := Asteroid_GetRadius a in
  match GetRandomValue_at (grv_calls g) 0 3 with
  | 0 => v2y pos = F32.opp rad
  | 1 => v2x pos = F32.add (F32.of_int w) rad
  | 2 => v2y pos = F32.add (F32.of_int h) rad
  | _ => v2x pos = F32.opp rad
  end.
Proof.
  unfold Asteroid_init, GetRandomValue, RandomFloat, rand.
  destruct (GetRandomValue_at (grv_calls g) 0 3) as [| [q | [q | q | ] | ] | q];
    reflexivity.
Qed.

(** Every class is placed with the radius of the base-class default size
    [SMALL], 16, since the derived constructor sets the size only after
    [init] has run. *)
Lemma spawn_offset_is_16 (d : Z) (s : Size) (w h : Z) (g : Rng) :
  let a := fst (derived_ctor d s w h g) in
  let pos := position (a_transform a) in
  Asteroid_GetRadius a = F32.mul (F32.of_int 16) (F32.of_int (Size_to_int s)) /\
  match GetRandomValue_at (grv_calls g) 0 3 with
  | 0 => v2y pos = F32.opp (F32.of_int 16)
  | 1 => v2x pos = F32.add (F32.of_int w) (F32.of_int 16)
  | 2 => v2y pos = F32.add (F32.of_int h) (F32.of_int 16)
  | _ => v2x pos = F32.opp (F32.of_int 16)
  end.
Proof.
  intros a pos.
  destruct (derived_ctor_fields d s w h g) as (Ht & Hs & _).
  split.
  - unfold Asteroid_GetRadius. fold a in Hs. rewrite Hs. reflexivity.
  - unfold pos. fold a in Ht. rewrite Ht. unfold Asteroid_ctor.
    apply Asteroid_init_position.
Qed.

(** C10.  The contact damage of an asteroid is its base damage times its
    size multiplier: 5 for a triangle (SMALL), 20 for a square (MEDIUM),
    60 for a pentagon (LARGE), 100 for a GIGA asteroid, whose base damage
    10 is the one of MEDIUM.  A newly constructed player has 100
    hit-points, so the damage of one GIGA asteroid leaves it with exactly
    0 and not alive; pass B deals exactly that damage on contact. *)
Theorem contact_damage_per_class :
  (forall w h g,
     Asteroid_GetDamage (fst (TriangleAsteroid w h g)) = 5 * 1 /\
     Asteroid_GetDamage (fst (SquareAsteroid w h g)) = 10 * 2 /\
     Asteroid_GetDamage (fst (PentagonAsteroid w h g)) = 15 * 4 /\
     Asteroid_GetDamage (fst (GigaAsteroid w h g)) = 10 * 10 /\
     a_baseDamage (fst (GigaAsteroid w h g)) =
       a_baseDamage (fst (SquareAsteroid w h g))) /\
  (forall w h dmg,
     Ship_GetHP (PlayerShip_ctor w h) = 100 /\
     (dmg = 100 ->
      Ship_GetHP (Ship_TakeDamage (PlayerShip_ctor w h) dmg) = 0 /\
      Ship_IsAlive (Ship_TakeDamage (PlayerShip_ctor w h) dmg) = false)) /\
  (forall r d pl a,
     a_size a = GIGA -> a_baseDamage a = 10 ->
     Ship_IsAlive pl = true -> Ship_GetHP pl = 100 -> touches pl a = true ->
     let pl' := fst (fst (remove_collision r d pl a)) in
     Ship_GetHP pl' = 0 /\ Ship_IsAlive pl' = false).
Proof.
  split; [| split].
  - intros w h g.
    unfold TriangleAsteroid, SquareAsteroid, PentagonAsteroid, GigaAsteroid,
      Asteroid_GetDamage.
    destruct (derived_ctor_fields 5 SMALL w h g) as (_ & S1 & D1 & _).
    destruct (derived_ctor_fields 10 MEDIUM w h g) as (_ & S2 & D2 & _).
    destruct (derived_ctor_fields 15 LARGE w h g) as (_ & S3 & D3 & _).
    destruct (derived_ctor_fields 10 GIGA w h g) as (_ & S4 & D4 & _).
    cbv zeta in *.
    rewrite S1, D1, S2, D2, S3, D3, S4, D4. repeat split.
  - intros w h dmg. split; [reflexivity |].
    intros ->. split; reflexivity.
  - intros r d pl a Hs Hd Halive Hhp Htouch pl'.
    unfold pl'. rewrite (remove_collision_contact r d pl a Halive Htouch).
    unfold Asteroid_GetDamage. rewrite Hs, Hd. simpl.
    unfold Ship_TakeDamage, Ship_IsAlive, Ship_GetHP in *.
    rewrite Halive, Hhp. simpl. split; reflexivity.
Qed.

(** ** Fire rates and spacings *)

Lemma PlayerShip_ctor_configured (w h : Z) : configured (PlayerShip_ctor w h).
Proof. repeat split. Qed.

Lemma PlayerShip_Update_configured (s : PlayerShip) (i : Input) :
  configured s -> configured (PlayerShip_Update s i).
Proof.
  unfold PlayerShip_Update. destruct (s_alive s); intros H; exact H.
Qed.

Lemma Ship_TakeDamage_configured (s : PlayerShip) (dmg : Z) :
  configured s -> configured (Ship_TakeDamage s dmg).
Proof.
  unfold Ship_TakeDamage. destruct (negb (s_alive s)); intros H; exact H.
Qed.

Lemma pass_B_configured (r : Renderer) (d : float) (asts : list Asteroid) :
  forall pl, configured pl ->
  configured (fst (asteroid_ship_collisions r d pl asts)).
Proof.
  induction asts as [| a rest IH]; intros pl H; simpl.
  - exact H.
  - destruct (remove_collision r d pl a) as [[pl1 a'] marked] eqn:E.
    assert (H1 : configured pl1).
    { unfold remove_collision in E.
      destruct (Ship_IsAlive pl && touches pl a).
      - inversion E; subst. apply Ship_TakeDamage_configured, H.
      - destruct (Asteroid_Update r a d). inversion E; subst. exact H. }
    specialize (IH pl1 H1).
    destruct (asteroid_ship_collisions r d pl1 rest). exact IH.
Qed.


Lemma restart_logic_weapon (i : Input) (w : World) :
  currentWeapon (restart_logic i w) = currentWeapon w.
Proof.
  unfold restart_logic.
  destruct (negb (Ship_IsAlive (player w)) && pressed_R i); [| trivial].
  destruct (RandomFloat C_SPAWN_MIN C_SPAWN_MAX (rng w)). reflexivity.
Qed.

Lemma spawn_weapon (w : World) : currentWeapon (spawn w) = currentWeapon w.
Proof.
  unfold spawn.
  destruct (F32.ge (spawnTimer w) (spawnInterval w)
            && (Z.of_nat (length (asteroids w)) <? MAX_AST)); [| reflexivity].
  destruct (MakeAsteroid (C_WIDTH w) (C_HEIGHT w) (currentShape w) (rng w)) as [a g1].
  destruct (RandomFloat C_SPAWN_MIN C_SPAWN_MAX g1). reflexivity.
Qed.

Lemma weapon_switch_not_COUNT (i : Input) (cw : WeaponType.t) :
  cw <> WeaponType.COUNT -> weapon_switch i cw <> WeaponType.COUNT.
Proof.
  unfold weapon_switch. destruct (pressed_TAB i); [| trivial].
  destruct cw; simpl; congruence.
Qed.

Lemma frame_weapon (fuel : nat) (i : Input) (w w' : World) :
  frame fuel i w = Ok w' ->
  currentWeapon w' = weapon_switch i (currentWeapon w).
Proof.
  unfold frame.
  set (w1 := restart_logic i _).
  destruct (shooting fuel i (player w1) (weapon_switch i (currentWeapon w1))
              (shotTimer w1) (projectiles w1)) as [sh | |]; simpl; try discriminate.
  set (w3 := spawn _).
  destruct (collisions (mkRenderer (C_WIDTH w3) (C_HEIGHT w3)) (dt i) (player w3)
              (update_projectiles (mkRenderer (C_WIDTH w3) (C_HEIGHT w3)) (dt i)
                 (projectiles w3)) (asteroids w3)) as [[[pl5 projs5] asts5] | |];
    simpl; try discriminate.
  intros H; inversion H; subst; clear H. simpl.
  unfold w3. rewrite spawn_weapon. simpl.
  unfold w1. rewrite restart_logic_weapon. reflexivity.
Qed.





(** ** Shooting *)



Lemma laser_interval :
  F32.div (F32.of_int 1) (F32.of_int 18) = S754_finite false 14913081 (-28).
Proof. reflexivity. Qed.




(** ** binary32 facts: comparison of normal forms, range of [fmodf] *)











(** ** Further properties: lists derived from lists *)

Lemma derived_refl {A : Type} (R : A -> A -> Prop) :
  (forall a, R a a) -> forall l, derived R l l.
Proof.
  intros HR l. induction l as [| a l IH].
  - apply derived_nil.
  - apply derived_keep; auto.
Qed.

Lemma derived_length {A : Type} (R : A -> A -> Prop) (l l' : list A) :
  derived R l l' -> (length l' <= length l)%nat.
Proof.
  induction 1; simpl; lia.
Qed.

Lemma derived_Forall {A : Type} (R : A -> A -> Prop) (P Q : A -> Prop)
    (l l' : list A) :
  (forall a a', P a -> R a a' -> Q a') ->
  derived R l l' -> Forall P l -> Forall Q l'.
Proof.
  intros HPQ H. induction H as [| a l l' _ IH | a a' l l' Ha _ IH]; intros HP.
  - constructor.
  - apply IH. inversion HP; assumption.
  - inversion HP; subst. constructor; [eapply HPQ; eassumption | auto].
Qed.

Lemma derived_trans {A : Type} (R : A -> A -> Prop) :
  (forall a b c, R a b -> R b c -> R a c) ->
  forall l1 l2, derived R l1 l2 ->
  forall l3, derived R l2 l3 -> derived R l1 l3.
Proof.
  intros HR l1 l2 H12.
  induction H12 as [| a l l' _ IH | a a' l l' Ha _ IH]; intros l3 H23.
  - exact H23.
  - apply derived_erase, IH, H23.
  - inversion H23; subst.
    + apply derived_erase, IH. assumption.
    + apply derived_keep; [eapply HR; eassumption | apply IH; assumption].
Qed.

Lemma derived_app_left {A : Type} (R : A -> A -> Prop) (k l l' : list A) :
  (forall a, R a a) -> derived R l l' -> derived R (k ++ l) (k ++ l').
Proof.
  intros HR H. induction k as [| a k IH]; simpl; [exact H |].
  apply derived_keep; auto.
Qed.

Lemma worn_refl (a : Asteroid) : worn a a.
Proof. repeat split. lia. Qed.

Lemma worn_trans (a b c : Asteroid) : worn a b -> worn b c -> worn a c.
Proof.
  intros (T1 & P1 & S1 & D1 & H1) (T2 & P2 & S2 & D2 & H2).
  repeat split; try congruence. lia.
Qed.

(** ** Further properties: pass A *)

Lemma hits_defined (p : Projectile) (a : Asteroid) :
  p_type p <> WeaponType.COUNT -> exists b, hits p a = Ok b.
Proof.
  intros H. unfold hits, Projectile_GetRadius.
  destruct (p_type p); try congruence; simpl; eexists; reflexivity.
Qed.

Lemma projectile_ok_type (p : Projectile) :
  projectile_ok p -> p_type p <> WeaponType.COUNT.
Proof.
  unfold projectile_ok. destruct (p_type p); intros H; try discriminate.
  destruct H.
Qed.

Lemma projectile_ok_damage (p : Projectile) :
  projectile_ok p -> 0 <= Projectile_GetDamage p.
Proof.
  unfold projectile_ok, Projectile_GetDamage.
  destruct (p_type p); intros H; lia.
Qed.

Lemma scan_asteroids_defined (p : Projectile) (asts : list Asteroid) :
  p_type p <> WeaponType.COUNT -> exists o, scan_asteroids p asts = Ok o.
Proof.
  intros Hp. induction asts as [| a rest IH]; simpl.
  - eexists; reflexivity.
  - destruct (hits_defined p a Hp) as [b Hb]. rewrite Hb. simpl.
    destruct b; [eexists; reflexivity |].
    destruct IH as [o Ho]. rewrite Ho. simpl. eexists; reflexivity.
Qed.

Lemma scan_asteroids_derived (p : Projectile) (asts asts' : list Asteroid) :
  0 <= Projectile_GetDamage p ->
  scan_asteroids p asts = Ok (Some asts') -> derived worn asts asts'.
Proof.
  intros HD. revert asts'.
  induction asts as [| a rest IH]; intros asts' H; simpl in H.
  - discriminate.
  - destruct (hits p a) as [b | |]; simpl in H; try discriminate.
    destruct b.
    + inversion H; subst; clear H.
      destruct (Asteroid_IsDead (Asteroid_TakeDamage a (Projectile_GetDamage p))).
      * apply derived_erase, derived_refl, worn_refl.
      * apply derived_keep; [| apply derived_refl, worn_refl].
        repeat split. simpl. lia.
    + destruct (scan_asteroids p rest) as [[l |] | |]; simpl in H;
        try discriminate.
      inversion H; subst; clear H.
      apply derived_keep; [apply worn_refl | apply IH; reflexivity].
Qed.

Lemma scan_asteroids_ok (p : Projectile) (asts asts' : list Asteroid) :
  0 <= Projectile_GetDamage p ->
  scan_asteroids p asts = Ok (Some asts') ->
  Forall asteroid_ok asts -> Forall asteroid_ok asts'.
Proof.
  intros HD. revert asts'.
  induction asts as [| a rest IH]; intros asts' H Hok; simpl in H.
  - discriminate.
  - inversion Hok as [| a0 l0 Ha Hrest]; subst.
    destruct (hits p a) as [b | |]; simpl in H; try discriminate.
    destruct b.
    + inversion H; subst; clear H.
      destruct (Asteroid_IsDead (Asteroid_TakeDamage a (Projectile_GetDamage p)))
        eqn:E; [exact Hrest |].
      constructor; [| exact Hrest].
      unfold Asteroid_IsDead in E. simpl in E. apply Z.leb_gt in E.
      destruct Ha as [[H1 H2] H3].
      unfold asteroid_ok, Asteroid_GetMaxHP in *. simpl. split; [lia | exact H3].
    + destruct (scan_asteroids p rest) as [[l |] | |]; simpl in H;
        try discriminate.
      inversion H; subst; clear H.
      constructor; [exact Ha | apply IH; auto].
Qed.

Lemma pass_A_defined (ps : list Projectile) :
  Forall (fun p => p_type p <> WeaponType.COUNT) ps ->
  forall asts, exists r, projectile_asteroid_collisions ps asts = Ok r.
Proof.
  induction 1 as [| p ps Hp _ IH]; intros asts; simpl.
  - eexists; reflexivity.
  - destruct (scan_asteroids_defined p asts Hp) as [o Ho]. rewrite Ho. simpl.
    destruct o as [asts' |].
    + apply IH.
    + destruct (IH asts) as [r Hr]. rewrite Hr. simpl. eexists; reflexivity.
Qed.

Lemma pass_A_derived (ps : list Projectile) :
  Forall (fun p => 0 <= Projectile_GetDamage p) ps ->
  forall asts kept asts',
    projectile_asteroid_collisions ps asts = Ok (kept, asts') ->
    derived eq ps kept /\ derived worn asts asts'.
Proof.
  induction 1 as [| p ps Hp _ IH]; intros asts kept asts' H; simpl in H.
  - inversion H; subst. split; [apply derived_nil | apply derived_refl, worn_refl].
  - destruct (scan_asteroids p asts) as [[l |] | |] eqn:E; simpl in H;
      try discriminate.
    + destruct (IH l kept asts' H) as [H1 H2]. split.
      * apply derived_erase, H1.
      * apply (derived_trans worn worn_trans asts l);
          [apply (scan_asteroids_derived p asts l Hp E) | exact H2].
    + destruct (projectile_asteroid_collisions ps asts) as [[k a] | |] eqn:E2;
        simpl in H; try discriminate.
      inversion H; subst; clear H.
      destruct (IH asts k asts' E2) as [H1 H2]. split.
      * apply derived_keep; [reflexivity | exact H1].
      * exact H2.
Qed.

Lemma pass_A_ok (ps : list Projectile) :
  Forall (fun p => 0 <= Projectile_GetDamage p) ps ->
  forall asts kept asts',
    projectile_asteroid_collisions ps asts = Ok (kept, asts') ->
    Forall asteroid_ok asts -> Forall asteroid_ok asts'.
Proof.
  induction 1 as [| p ps Hp _ IH]; intros asts kept asts' H Hok; simpl in H.
  - inversion H; subst. exact Hok.
  - destruct (scan_asteroids p asts) as [[l |] | |] eqn:E; simpl in H;
      try discriminate.
    + apply (IH l kept asts' H). apply (scan_asteroids_ok p asts l Hp E Hok).
    + destruct (projectile_asteroid_collisions ps asts) as [[k a] | |] eqn:E2;
        simpl in H; try discriminate.
      inversion H; subst; clear H.
      apply (IH asts k asts' E2 Hok).
Qed.

Lemma pass_A_untouched (ps : list Projectile) (asts : list Asteroid) :
  Forall (fun p => Forall (fun a => hits p a = Ok false) asts) ps ->
  projectile_asteroid_collisions ps asts = Ok (ps, asts).
Proof.
  induction 1 as [| p ps Hp _ IH]; simpl.
  - reflexivity.
  - rewrite (scan_asteroids_no_contact p asts Hp). simpl. rewrite IH.
    reflexivity.
Qed.

(** ** Further properties: pass B and the integration of projectiles *)

Lemma Asteroid_Update_fields (r : Renderer) (a : Asteroid) (d : float) :
  let a' := fst (Asteroid_Update r a d) in
  a_physics a' = a_physics a /\ a_size a' = a_size a /\
  a_baseDamage a' = a_baseDamage a /\ a_hp a' = a_hp a.
Proof.
  unfold Asteroid_Update.
  match goal with
  | |- context [if ?c then _ else _] => destruct c
  end; repeat split.
Qed.

Lemma Asteroid_Update_kept (r : Renderer) (a : Asteroid) (d : float) :
  snd (Asteroid_Update r a d) = true -> in_margin r (fst (Asteroid_Update r a d)).
Proof.
  unfold Asteroid_Update, in_margin.
  match goal with
  | |- context [if ?c then _ else _] => destruct c eqn:Hc
  end; simpl; [discriminate | intros _].
  repeat (apply orb_false_iff in Hc; destruct Hc as [Hc ?]).
  repeat split; assumption.
Qed.

Lemma asteroid_ok_Update (r : Renderer) (a : Asteroid) (d : float) :
  asteroid_ok a -> asteroid_ok (fst (Asteroid_Update r a d)).
Proof.
  destruct (Asteroid_Update_fields r a d) as (_ & Hs & Hd & Hh).
  unfold asteroid_ok, Asteroid_GetMaxHP. cbv zeta in *.
  rewrite Hs, Hd, Hh. trivial.
Qed.

Lemma asteroid_ok_damage (a : Asteroid) :
  asteroid_ok a -> 0 < Asteroid_GetDamage a.
Proof.
  unfold asteroid_ok, Asteroid_GetDamage. intros [_ H]. rewrite H.
  destruct (a_size a); reflexivity.
Qed.

Lemma pass_B_dead (r : Renderer) (d : float) (asts : list Asteroid) :
  forall pl, Ship_IsAlive pl = false ->
  asteroid_ship_collisions r d pl asts = (pl, integrate_asteroids r d asts).
Proof.
  induction asts as [| a rest IH]; intros pl H; simpl.
  - reflexivity.
  - rewrite (remove_collision_no_contact r d pl a (or_introl H)).
    rewrite (IH pl H).
    destruct (snd (Asteroid_Update r a d)); reflexivity.
Qed.

Lemma pass_B_app (r : Renderer) (d : float) (asts1 asts2 : list Asteroid) :
  forall pl,
    asteroid_ship_collisions r d pl (asts1 ++ asts2) =
    (fst (asteroid_ship_collisions r d
            (fst (asteroid_ship_collisions r d pl asts1)) asts2),
     snd (asteroid_ship_collisions r d pl asts1) ++
     snd (asteroid_ship_collisions r d
            (fst (asteroid_ship_collisions r d pl asts1)) asts2)).
Proof.
  induction asts1 as [| a rest IH]; intros pl; simpl.
  - destruct (asteroid_ship_collisions r d pl asts2); reflexivity.
  - destruct (remove_collision r d pl a) as [[pl1 a'] marked].
    rewrite (IH pl1).
    destruct (asteroid_ship_collisions r d pl1 rest) as [pl2 rest'].
    simpl. destruct marked; reflexivity.
Qed.

Lemma pass_B_derived (r : Renderer) (d : float) (asts : list Asteroid) :
  forall pl,
    derived (fun a a' => a' = fst (Asteroid_Update r a d) /\ in_margin r a')
            asts (snd (asteroid_ship_collisions r d pl asts)).
Proof.
  induction asts as [| a rest IH]; intros pl; simpl.
  - apply derived_nil.
  - unfold remove_collision.
    destruct (Ship_IsAlive pl && touches pl a).
    + specialize (IH (Ship_TakeDamage pl (Asteroid_GetDamage a))).
      destruct (asteroid_ship_collisions r d
                  (Ship_TakeDamage pl (Asteroid_GetDamage a)) rest).
      apply derived_erase, IH.
    + destruct (Asteroid_Update r a d) as [a' keep] eqn:E.
      specialize (IH pl).
      destruct (asteroid_ship_collisions r d pl rest) as [pl2 rest'].
      simpl in *. destruct keep; simpl.
      * apply derived_keep; [| exact IH].
        assert (K := Asteroid_Update_kept r a d). rewrite E in K.
        split; [rewrite E; reflexivity | apply K; reflexivity].
      * apply derived_erase, IH.
Qed.

Lemma Ship_TakeDamage_health (s : PlayerShip) (dmg : Z) :
  0 <= dmg -> s_alive s = (0 <? s_hp s) ->
  s_alive (Ship_TakeDamage s dmg) = (0 <? s_hp (Ship_TakeDamage s dmg)) /\
  s_hp (Ship_TakeDamage s dmg) <= s_hp s.
Proof.
  intros Hd Hc. unfold Ship_TakeDamage.
  destruct (s_alive s) eqn:E; simpl.
  - destruct (s_hp s - dmg <=? 0) eqn:L; simpl.
    + apply Z.leb_le in L. split; [| lia].
      symmetry. apply Z.ltb_ge. lia.
    + apply Z.leb_gt in L. split; [| lia].
      symmetry. apply Z.ltb_lt. lia.
  - rewrite E. split; [exact Hc | lia].
Qed.

Lemma pass_B_health (r : Renderer) (d : float) (asts : list Asteroid) :
  Forall (fun a => 0 <= Asteroid_GetDamage a) asts ->
  forall pl,
    s_alive pl = (0 <? s_hp pl) ->
    let pl' := fst (asteroid_ship_collisions r d pl asts) in
    s_alive pl' = (0 <? s_hp pl') /\ s_hp pl' <= s_hp pl.
Proof.
  induction 1 as [| a rest Ha _ IH]; intros pl Hc; simpl.
  - split; [exact Hc | lia].
  - unfold remove_collision.
    destruct (Ship_IsAlive pl && touches pl a).
    + destruct (Ship_TakeDamage_health pl (Asteroid_GetDamage a) Ha Hc) as [H1 H2].
      specialize (IH (Ship_TakeDamage pl (Asteroid_GetDamage a)) H1).
      destruct (asteroid_ship_collisions r d
                  (Ship_TakeDamage pl (Asteroid_GetDamage a)) rest).
      simpl in *. split; [apply IH | lia].
    + destruct (Asteroid_Update r a d) as [a' keep].
      specialize (IH pl Hc).
      destruct (asteroid_ship_collisions r d pl rest). exact IH.
Qed.

Lemma Projectile_Update_fields (r : Renderer) (p : Projectile) (d : float) :
  let p' := fst (Projectile_Update r p d) in
  p_physics p' = p_physics p /\ p_baseDamage p' = p_baseDamage p /\
  p_type p' = p_type p /\
  rotation (p_transform p') = rotation (p_transform p).
Proof.
  unfold Projectile_Update.
  match goal with
  | |- context [if ?c then _ else _] => destruct c
  end; [repeat split |].
  match goal with
  | |- context [if ?c then _ else _] => destruct c
  end; repeat split.
Qed.

Lemma Projectile_Update_kept (r : Renderer) (p : Projectile) (d : float) :
  snd (Projectile_Update r p d) = false ->
  in_viewport r (fst (Projectile_Update r p d)).
Proof.
  unfold Projectile_Update, in_viewport.
  set (pos := Vector2Add _ _). set (life := F32.sub _ _).
  destruct (F32.lt (v2x pos) F32.zero
            || F32.gt (v2x pos) (F32.of_int (Width r))
            || F32.lt (v2y pos) F32.zero
            || F32.gt (v2y pos) (F32.of_int (Height r))) eqn:Hc;
    [discriminate |].
  destruct (F32.le life F32.zero) eqn:Hl; [discriminate |].
  intros _. cbn [fst p_transform position p_life].
  repeat (apply orb_false_iff in Hc; destruct Hc as [Hc ?]).
  repeat split; assumption.
Qed.

Lemma projectile_ok_Update (r : Renderer) (p : Projectile) (d : float) :
  projectile_ok p -> projectile_ok (fst (Projectile_Update r p d)).
Proof.
  destruct (Projectile_Update_fields r p d) as (Hp & Hd & Ht & _).
  unfold projectile_ok. cbv zeta in *. rewrite Hp, Hd, Ht. trivial.
Qed.

Lemma update_projectiles_derived (r : Renderer) (d : float)
    (ps : list Projectile) :
  derived (fun p p' => p' = fst (Projectile_Update r p d) /\ in_viewport r p')
          ps (update_projectiles r d ps).
Proof.
  induction ps as [| p ps IH]; simpl.
  - apply derived_nil.
  - destruct (Projectile_Update r p d) as [p' gone] eqn:E.
    destruct gone.
    + apply derived_erase, IH.
    + apply derived_keep; [| exact IH].
      assert (K := Projectile_Update_kept r p d). rewrite E in K.
      split; [rewrite E; reflexivity | apply K; reflexivity].
Qed.

(** ** Further properties: shooting, spawning, switches *)

Lemma fire_ok (pl : PlayerShip) (cw : WeaponType.t) (projSpeed : float) :
  cw <> WeaponType.COUNT -> projectile_ok (fire pl cw projSpeed).
Proof.
  intros H. unfold fire, MakeProjectile, projectile_ok.
  destruct cw; simpl; try congruence; auto.
Qed.

Lemma shoot_loop_shape (fuel : nat) (pl : PlayerShip) (cw : WeaponType.t)
    (projSpeed interval : float) :
  forall timer projs,
    (exists timer' n,
       (n <= fuel)%nat /\
       shoot_loop fuel pl cw projSpeed interval timer projs =
       Ok (timer', projs ++ repeat (fire pl cw projSpeed) n) /\
       F32.ge timer' interval = false) \/
    shoot_loop fuel pl cw projSpeed interval timer projs = OutOfFuel.
Proof.
  induction fuel as [| fuel IH]; intros timer projs; simpl.
  - destruct (F32.ge timer interval) eqn:G; [right; reflexivity |].
    left. exists timer, 0%nat. simpl. rewrite app_nil_r. auto.
  - destruct (F32.ge timer interval) eqn:G.
    + destruct (IH (F32.sub timer interval) (projs ++ [fire pl cw projSpeed]))
        as [(t' & n & Hn & Heq & Hlt) | Hout]; [left | right; exact Hout].
      exists t', (S n). split; [lia |]. split; [| exact Hlt].
      rewrite Heq, <- app_assoc. reflexivity.
    + left. exists timer, 0%nat. simpl. rewrite app_nil_r.
      split; [lia | auto].
Qed.

Lemma shoot_loop_absorbed (pl : PlayerShip) (cw : WeaponType.t)
    (projSpeed interval timer : float) :
  F32.ge timer interval = true ->
  F32.sub timer interval = timer ->
  forall fuel projs,
    shoot_loop fuel pl cw projSpeed interval timer projs = OutOfFuel.
Proof.
  intros G A fuel.
  induction fuel as [| fuel IH]; intros projs; simpl; rewrite G.
  - reflexivity.
  - rewrite A. apply IH.
Qed.

Lemma derived_ctor_ok (d : Z) (s : Size) (w h : Z) (g : Rng) :
  d = class_baseDamage s -> asteroid_ok (fst (derived_ctor d s w h g)).
Proof.
  intros Hd.
  destruct (derived_ctor_fields d s w h g) as (_ & Hs & Hb & Hh).
  unfold asteroid_ok, Asteroid_GetMaxHP. cbv zeta in *.
  rewrite Hs, Hb, Hh. split; [destruct s; lia | exact Hd].
Qed.

Lemma MakeAsteroid_ok (w h : Z) (shape : AsteroidShape.t) (g : Rng) :
  asteroid_ok (fst (MakeAsteroid w h shape g)).
Proof.
  unfold MakeAsteroid, TriangleAsteroid, SquareAsteroid, PentagonAsteroid,
    GigaAsteroid.
  destruct shape; try (apply derived_ctor_ok; reflexivity).
  destruct (GetRandomValue 0 99 g) as [randomShape g'].
  destruct (randomShape <? 45); [apply derived_ctor_ok; reflexivity |].
  destruct (randomShape <? 75); [apply derived_ctor_ok; reflexivity |].
  destruct (randomShape <? 95); apply derived_ctor_ok; reflexivity.
Qed.

Lemma Asteroid_ctor_rng (w h : Z) (g : Rng) :
  snd (Asteroid_ctor w h g) = mkRng (6 + rand_calls g) (1 + grv_calls g).
Proof.
  unfold Asteroid_ctor, Asteroid_init, GetRandomValue, RandomFloat, rand.
  destruct (GetRandomValue_at (grv_calls g) 0 3) as [| [q | [q | q | ] | ] | q];
    reflexivity.
Qed.

Lemma derived_ctor_rng (d : Z) (s : Size) (w h : Z) (g : Rng) :
  snd (derived_ctor d s w h g) = mkRng (6 + rand_calls g) (1 + grv_calls g).
Proof.
  unfold derived_ctor.
  assert (H := Asteroid_ctor_rng w h g).
  destruct (Asteroid_ctor w h g) as [a g']. exact H.
Qed.

(** ** Further properties: what a frame keeps *)

Lemma PlayerShip_Update_hp (s : PlayerShip) (i : Input) :
  s_hp (PlayerShip_Update s i) = s_hp s.
Proof.
  unfold PlayerShip_Update. destruct (s_alive s); reflexivity.
Qed.

Lemma restart_logic_ok (i : Input) (w : World) :
  world_ok w -> world_ok (restart_logic i w).
Proof.
  intros Hok. unfold restart_logic.
  destruct (negb (Ship_IsAlive (player w)) && pressed_R i); [| exact Hok].
  destruct (RandomFloat C_SPAWN_MIN C_SPAWN_MAX (rng w)) as [si g].
  destruct Hok as (_ & Hw & _).
  unfold world_ok; simpl.
  repeat split; auto; lia.
Qed.

Lemma shooting_shape (fuel : nat) (i : Input) (pl : PlayerShip)
    (cw : WeaponType.t) (timer : float) (projs : list Projectile) :
  cw <> WeaponType.COUNT ->
  (exists timer' n rate,
     Ship_GetFireRate pl cw = Ok rate /\
     (n <= fuel)%nat /\
     (Ship_IsAlive pl && down_SPACE i = false -> n = 0%nat) /\
     shooting fuel i pl cw timer projs =
     Ok (timer',
         projs ++ repeat (fire pl cw (F32.mul (Ship_GetSpacing pl cw) rate)) n)) \/
  (shooting fuel i pl cw timer projs = OutOfFuel /\
   Ship_IsAlive pl && down_SPACE i = true).
Proof.
  intros Hcw. unfold shooting.
  assert (Hrate : exists rate, Ship_GetFireRate pl cw = Ok rate)
    by (destruct cw; try congruence; simpl; eexists; reflexivity).
  destruct Hrate as [rate Hrate]. rewrite Hrate. cbn [bind].
  destruct (Ship_IsAlive pl && down_SPACE i).
  - destruct (shoot_loop_shape fuel pl cw
                (F32.mul (Ship_GetSpacing pl cw) rate)
                (F32.div (F32.of_int 1) rate)
                (F32.add timer (dt i)) projs)
      as [(t' & n & Hn & Heq & _) | Hout].
    + left. exists t', n, rate. repeat split; auto. discriminate.
    + right. split; [exact Hout | reflexivity].
  - left. eexists _, 0%nat, rate. simpl. rewrite app_nil_r.
    repeat split; auto. lia.
Qed.

Lemma spawn_ok (w : World) : world_ok w -> world_ok (spawn w).
Proof.
  intros Hok. unfold spawn.
  destruct (F32.ge (spawnTimer w) (spawnInterval w)) ; simpl; [| exact Hok].
  destruct (Z.of_nat (length (asteroids w)) <? MAX_AST) eqn:L; [| exact Hok].
  assert (Ha := MakeAsteroid_ok (C_WIDTH w) (C_HEIGHT w) (currentShape w) (rng w)).
  destruct (MakeAsteroid (C_WIDTH w) (C_HEIGHT w) (currentShape w) (rng w))
    as [a g1].
  destruct (RandomFloat C_SPAWN_MIN C_SPAWN_MAX g1) as [si g2].
  destruct Hok as (H1 & H2 & H3 & H4 & H5 & H6 & H7).
  unfold world_ok; simpl.
  refine (conj H1 (conj H2 (conj H3 (conj H4 (conj _ (conj _ H7)))))).
  - apply Forall_app. split; [exact H5 | constructor; [exact Ha | constructor]].
  - rewrite length_app. simpl. apply Z.ltb_lt in L. unfold MAX_AST in L. lia.
Qed.

Lemma spawn_size (w : World) : C_WIDTH (spawn w) = C_WIDTH w /\ C_HEIGHT (spawn w) = C_HEIGHT w.
Proof.
  unfold spawn.
  destruct (F32.ge (spawnTimer w) (spawnInterval w)
            && (Z.of_nat (length (asteroids w)) <? MAX_AST)); [| split; reflexivity].
  destruct (MakeAsteroid (C_WIDTH w) (C_HEIGHT w) (currentShape w) (rng w)) as [a g1].
  destruct (RandomFloat C_SPAWN_MIN C_SPAWN_MAX g1). split; reflexivity.
Qed.

(** The outcome of one frame from a state the loop can be in. *)
Lemma frame_cases (fuel : nat) (i : Input) (w : World) :
  world_ok w ->
  (exists w',
     frame fuel i w = Ok w' /\
     world_ok w' /\
     Forall (in_viewport (mkRenderer (C_WIDTH w') (C_HEIGHT w'))) (projectiles w') /\
     (negb (Ship_IsAlive (player w)) && pressed_R i = false ->
      s_hp (player w') <= s_hp (player w))) \/
  (frame fuel i w = OutOfFuel /\ down_SPACE i = true).
Proof.
  intros Hok. unfold frame.
  set (w0 := mkWorld (PlayerShip_Update (player w) i) (asteroids w)
               (projectiles w) (currentShape w) (currentWeapon w)
               (F32.add (spawnTimer w) (dt i)) (spawnInterval w) (shotTimer w)
               (C_WIDTH w) (C_HEIGHT w) (rng w)).
  assert (H0 : world_ok w0).
  { destruct Hok as (H1 & H2 & H3 & H4 & H5 & H6 & H7).
    unfold world_ok, w0; simpl.
    rewrite PlayerShip_Update_alive, PlayerShip_Update_hp.
    exact (conj (PlayerShip_Update_configured _ i H1)
             (conj H2 (conj H3 (conj H4 (conj H5 (conj H6 H7)))))). }
  assert (H1 := restart_logic_ok i w0 H0).
  assert (Hhp : negb (Ship_IsAlive (player w)) && pressed_R i = false ->
                s_hp (player (restart_logic i w0)) = s_hp (player w)).
  { intros Hr. unfold restart_logic, w0, Ship_IsAlive in *; simpl.
    rewrite PlayerShip_Update_alive, Hr. simpl. apply PlayerShip_Update_hp. }
  set (w1 := restart_logic i w0) in *.
  destruct H1 as (C1 & W1 & A1 & P1 & F1 & L1 & J1).
  assert (Hcw := weapon_switch_not_COUNT i (currentWeapon w1) W1).
  destruct (shooting_shape fuel i (player w1) (weapon_switch i (currentWeapon w1))
              (shotTimer w1) (projectiles w1) Hcw)
    as [(t' & n & rate & _ & _ & _ & Hsh) | [Hsh Hsp]].
  2:{ right. rewrite Hsh. split; [reflexivity |].
      apply andb_true_iff in Hsp. apply Hsp. }
  left. rewrite Hsh. cbn [bind fst snd].
  set (w2 := mkWorld (player w1) (asteroids w1) _ _ _ _ _ _ _ _ _).
  assert (H2 : world_ok w2).
  { unfold world_ok, w2; simpl.
    refine (conj C1 (conj Hcw (conj A1 (conj P1 (conj F1 (conj L1 _)))))).
    apply Forall_app. split; [exact J1 |].
    apply Forall_forall. intros p Hp. apply repeat_spec in Hp. subst p.
    apply fire_ok, Hcw. }
  assert (H3 := spawn_ok w2 H2).
  set (w3 := spawn w2) in *.
  destruct H3 as (C3 & W3 & A3 & P3 & F3 & L3 & J3).
  set (r := mkRenderer (C_WIDTH w3) (C_HEIGHT w3)).
  assert (U := update_projectiles_derived r (dt i) (projectiles w3)).
  set (ps4 := update_projectiles r (dt i) (projectiles w3)) in *.
  assert (Uok : Forall projectile_ok ps4).
  { apply (derived_Forall _ projectile_ok projectile_ok _ _) with (2 := U);
      [| exact J3].
    intros p p' Hp [-> _]. apply projectile_ok_Update, Hp. }
  assert (Uin : Forall (in_viewport r) ps4).
  { apply (derived_Forall _ (fun _ => True) (in_viewport r) _ _) with (2 := U).
    - intros p p' _ [_ H]. exact H.
    - apply Forall_forall. trivial. }
  unfold collisions.
  destruct (pass_A_defined ps4) with (asts := asteroids w3) as [[kept asts5] HA].
  { apply Forall_impl with (2 := Uok). apply projectile_ok_type. }
  rewrite HA. cbn [bind fst snd].
  assert (Hdmg : Forall (fun p => 0 <= Projectile_GetDamage p) ps4)
    by (apply Forall_impl with (2 := Uok); apply projectile_ok_damage).
  destruct (pass_A_derived ps4 Hdmg _ _ _ HA) as [Dk Da].
  assert (F5 := pass_A_ok ps4 Hdmg _ _ _ HA F3).
  assert (Bd := pass_B_derived r (dt i) asts5 (player w3)).
  assert (Bh := pass_B_health r (dt i) asts5
                  (Forall_impl _ (fun a H => Z.lt_le_incl _ _ (asteroid_ok_damage a H)) F5)
                  (player w3) A3).
  assert (Bc := pass_B_configured r (dt i) asts5 (player w3) C3).
  destruct (asteroid_ship_collisions r (dt i) (player w3) asts5) as [pl6 asts6].
  cbv zeta in Bh. simpl in Bd, Bh, Bc. destruct Bh as [Bh1 Bh2].
  eexists. split; [reflexivity |].
  assert (Hpl3 : player w3 = player w1)
    by (unfold w3; rewrite spawn_player; reflexivity).
  split; [| split].
  - unfold world_ok; simpl.
    refine (conj Bc (conj W3 (conj Bh1 (conj _ (conj _ (conj _ _)))))).
    + rewrite Hpl3 in Bh2. rewrite Hpl3 in P3. lia.
    + apply (derived_Forall _ asteroid_ok asteroid_ok _ _) with (2 := Bd);
        [| exact F5].
      intros a a' Ha [-> _]. apply asteroid_ok_Update, Ha.
    + apply derived_length in Bd. apply derived_length in Da. lia.
    + apply (derived_Forall _ projectile_ok projectile_ok _ _) with (2 := Dk);
        [| exact Uok].
      intros p p' Hp <-. exact Hp.
  - simpl.
    apply (derived_Forall _ (in_viewport r) (in_viewport r) _ _) with (2 := Dk);
      [| exact Uin].
    intros p p' Hp <-. exact Hp.
  - simpl. intros Hr. rewrite Hpl3 in Bh2. rewrite <- (Hhp Hr). exact Bh2.
Qed.

(** ** Further properties: runs *)

Lemma Run_init_ok (w h : Z) : world_ok (Run_init w h).
Proof.
  unfold Run_init.
  destruct (RandomFloat C_SPAWN_MIN C_SPAWN_MAX (mkRng 0 0)) as [si g].
  unfold world_ok; simpl.
  refine (conj (PlayerShip_ctor_configured w h)
            (conj _ (conj eq_refl (conj _ (conj _ (conj _ _)))))).
  - discriminate.
  - lia.
  - constructor.
  - lia.
  - constructor.
Qed.

Lemma Run_frames_ok (fuel : nat) (inputs : list Input) :
  forall w w', world_ok w -> Run_frames fuel inputs w = Ok w' -> world_ok w'.
Proof.
  induction inputs as [| i inputs IH]; intros w w' Hok Hrun; simpl in Hrun.
  - inversion Hrun; subst. exact Hok.
  - destruct (frame_cases fuel i w Hok) as [(w1 & Hf & Hok1 & _) | [Hf _]];
      rewrite Hf in Hrun; simpl in Hrun; [| discriminate].
    apply (IH w1 w' Hok1 Hrun).
Qed.

Lemma Run_frames_snoc (fuel : nat) (inputs : list Input) (i : Input) :
  forall w,
    Run_frames fuel (inputs ++ [i]) w =
    (w1 <- Run_frames fuel inputs w ;; frame fuel i w1).
Proof.
  induction inputs as [| j inputs IH]; intros w; simpl.
  - destruct (frame fuel i w); reflexivity.
  - destruct (frame fuel j w) as [w1 | |]; simpl; [apply IH | reflexivity ..].
Qed.

Lemma pass_A_kept (ps : list Projectile) :
  forall asts kept asts',
    projectile_asteroid_collisions ps asts = Ok (kept, asts') ->
    derived eq ps kept.
Proof.
  induction ps as [| p ps IH]; intros asts kept asts' H; simpl in H.
  - inversion H; subst. apply derived_nil.
  - destruct (scan_asteroids p asts) as [[l |] | |] eqn:E; simpl in H;
      try discriminate.
    + apply derived_erase, (IH l kept asts' H).
    + destruct (projectile_asteroid_collisions ps asts) as [[k a] | |] eqn:E2;
        simpl in H; try discriminate.
      inversion H; subst; clear H.
      apply derived_keep; [reflexivity | apply (IH asts k asts' E2)].
Qed.

Lemma Run_frames_cases (fuel : nat) (inputs : list Input) :
  forall w0, world_ok w0 ->
    (exists world, Run_frames fuel inputs w0 = Ok world) \/
    (Run_frames fuel inputs w0 = OutOfFuel /\
     exists i, In i inputs /\ down_SPACE i = true).
Proof.
  induction inputs as [| i inputs IH]; intros w0 Hok; simpl.
  - left. eexists; reflexivity.
  - destruct (frame_cases fuel i w0 Hok) as [(w1 & Hf & Hok1 & _) | [Hf Hs]];
      rewrite Hf; simpl.
    + destruct (IH w1 Hok1) as [Hr | [Hr (j & Hj & Hs)]]; [left; exact Hr |].
      right. split; [exact Hr |]. exists j. auto.
    + right. split; [reflexivity |]. exists i. auto.
Qed.

Lemma add_zero_keeps (x : float) (s : bool) :
  x <> S754_zero true -> F32.add x (S754_zero s) = x.
Proof.
  intros H. destruct x as [sx | sx | | sx m e]; try reflexivity.
  destruct sx, s; try reflexivity. congruence.
Qed.

Lemma mul_zero_finite (d : float) :
  F32.is_finite d = true -> exists s, F32.mul F32.zero d = S754_zero s.
Proof.
  destruct d as [sd | sd | | sd m e]; try discriminate; intros _;
    eexists; reflexivity.
Qed.

Lemma pass_A_asteroids_length (ps : list Projectile) :
  forall asts kept asts',
    projectile_asteroid_collisions ps asts = Ok (kept, asts') ->
    (length asts' <= length asts)%nat.
Proof.
  assert (S : forall p asts l, scan_asteroids p asts = Ok (Some l) ->
                               (length l <= length asts)%nat).
  { intros p asts. induction asts as [| a rest IH]; intros l H; simpl in H.
    - discriminate.
    - destruct (hits p a) as [b | |]; simpl in H; try discriminate.
      destruct b.
      + inversion H; subst.
        destruct (Asteroid_IsDead _); simpl; lia.
      + destruct (scan_asteroids p rest) as [[l0 |] | |]; simpl in H;
          try discriminate.
        inversion H; subst. simpl. specialize (IH l0 eq_refl). lia. }
  induction ps as [| p ps IH]; intros asts kept asts' H; simpl in H.
  - inversion H; subst. lia.
  - destruct (scan_asteroids p asts) as [[l |] | |] eqn:E; simpl in H;
      try discriminate.
    + specialize (IH l kept asts' H). specialize (S p asts l E). lia.
    + destruct (projectile_asteroid_collisions ps asts) as [[k a] | |] eqn:E2;
        simpl in H; try discriminate.
      inversion H; subst. apply (IH asts k asts' E2).
Qed.

Lemma spawn_projectiles (w : World) : projectiles (spawn w) = projectiles w.
Proof.
  unfold spawn.
  destruct (F32.ge (spawnTimer w) (spawnInterval w)
            && (Z.of_nat (length (asteroids w)) <? MAX_AST)); [| reflexivity].
  destruct (MakeAsteroid (C_WIDTH w) (C_HEIGHT w) (currentShape w) (rng w)) as [a g1].
  destruct (RandomFloat C_SPAWN_MIN C_SPAWN_MAX g1). reflexivity.
Qed.

Lemma spawn_asteroids_length (w : World) :
  (length (asteroids (spawn w)) <= S (length (asteroids w)))%nat.
Proof.
  unfold spawn.
  destruct (F32.ge (spawnTimer w) (spawnInterval w)
            && (Z.of_nat (length (asteroids w)) <? MAX_AST)); [| lia].
  destruct (MakeAsteroid (C_WIDTH w) (C_HEIGHT w) (currentShape w) (rng w)) as [a g1].
  destruct (RandomFloat C_SPAWN_MIN C_SPAWN_MAX g1). simpl.
  rewrite length_app. simpl. lia.
Qed.

Lemma PlayerShip_Update_dead_keys (s : PlayerShip) (i : Input) :
  Ship_IsAlive s = false ->
  PlayerShip_Update s i = PlayerShip_Update s (mode_keys_only i).
Proof.
  intros H. unfold PlayerShip_Update, Ship_IsAlive in *. rewrite H. reflexivity.
Qed.

Lemma restart_logic_not_pressed (i : Input) (w : World) :
  pressed_R i = false -> restart_logic i w = w.
Proof.
  intros H. unfold restart_logic. rewrite H, andb_false_r. reflexivity.
Qed.

Lemma shooting_dead (fuel : nat) (i j : Input) (pl : PlayerShip)
    (cw : WeaponType.t) (timer : float) (projs : list Projectile) :
  Ship_IsAlive pl = false ->
  shooting fuel i pl cw timer projs = shooting fuel j pl cw timer projs.
Proof.
  intros H. unfold shooting. rewrite H. reflexivity.
Qed.

Lemma shots_shape_aux (fuel : nat) (i : Input) (pl : PlayerShip)
    (cw : WeaponType.t) (timer timer' : float) (projs projs' : list Projectile) :
  shooting fuel i pl cw timer projs = Ok (timer', projs') ->
  exists n, (n <= fuel)%nat /\
            length projs' = (length projs + n)%nat /\
            (down_SPACE i = false -> projs' = projs).
Proof.
  unfold shooting.
  destruct (Ship_GetFireRate pl cw) as [rate | |];
    [| destruct (Ship_IsAlive pl && down_SPACE i); discriminate ..].
  destruct (Ship_IsAlive pl && down_SPACE i) eqn:C; cbn [bind]; intros H.
  - destruct (shoot_loop_shape fuel pl cw
                (F32.mul (Ship_GetSpacing pl cw) rate)
                (F32.div (F32.of_int 1) rate)
                (F32.add timer (dt i)) projs)
      as [(t' & n & Hn & Heq & Hlt) | Hout]; [| congruence].
    rewrite Heq in H. inversion H; subst; clear H.
    exists n. rewrite length_app, repeat_length. repeat split; auto.
    intros Hs. rewrite Hs, andb_false_r in C. discriminate.
  - inversion H; subst; clear H. exists 0%nat. repeat split; auto; lia.
Qed.

(** ** Further properties: statements *)

(** X1.  The asteroid population never exceeds the capacity: in every
    state the frame loop reaches there are at most 150 asteroids. *)
Theorem asteroid_population_bounded (fuel : nat) (inputs : list Input)
    (w h : Z) (world : World) :
  Run_frames fuel inputs (Run_init w h) = Ok world ->
  (length (asteroids world) <= 150)%nat.
Proof.
  intros Hrun.
  apply (Run_frames_ok fuel inputs _ _ (Run_init_ok w h) Hrun).
Qed.

(** X2.  The alive flag and the hit-points of the player agree in every
    state the frame loop reaches: the player is alive exactly when its
    hit-points are positive, and they never exceed the initial 100. *)
Theorem player_health_consistent (fuel : nat) (inputs : list Input)
    (w h : Z) (world : World) :
  Run_frames fuel inputs (Run_init w h) = Ok world ->
  (Ship_IsAlive (player world) = true <-> 0 < Ship_GetHP (player world)) /\
  Ship_GetHP (player world) <= 100.
Proof.
  intros Hrun.
  destruct (Run_frames_ok fuel inputs _ _ (Run_init_ok w h) Hrun)
    as (_ & _ & Ha & Hh & _).
  unfold Ship_IsAlive, Ship_GetHP. rewrite Ha. split; [| exact Hh].
  apply Z.ltb_lt.
Qed.

(** X3.  No run reaches the undefined return of [Ship::GetFireRate] or
    [Projectile::GetRadius]: whatever the inputs, the frames either all
    complete or the shooting loop runs out of fuel, and that only in a frame
    with the fire key held. *)
Theorem run_never_undefined (fuel : nat) (inputs : list Input) (w h : Z) :
  (exists world, Run_frames fuel inputs (Run_init w h) = Ok world) \/
  (Run_frames fuel inputs (Run_init w h) = OutOfFuel /\
   exists i, In i inputs /\ down_SPACE i = true).
Proof.
  apply Run_frames_cases, Run_init_ok.
Qed.

(** X4.  Every asteroid in a state the frame loop reaches has positive
    hit-points, at most the maximum of its size class, and the contact
    damage of its class (5, 20, 60 or 100). *)
Theorem asteroids_stay_well_formed (fuel : nat) (inputs : list Input)
    (w h : Z) (world : World) (a : Asteroid) :
  Run_frames fuel inputs (Run_init w h) = Ok world ->
  In a (asteroids world) ->
  0 < a_hp a <= Asteroid_GetMaxHP a /\
  Asteroid_GetDamage a = class_damage (a_size a).
Proof.
  intros Hrun Hin.
  destruct (Run_frames_ok fuel inputs _ _ (Run_init_ok w h) Hrun)
    as (_ & _ & _ & _ & Hf & _).
  rewrite Forall_forall in Hf. destruct (Hf a Hin) as [Hhp Hd].
  split; [exact Hhp |].
  unfold Asteroid_GetDamage. rewrite Hd. destruct (a_size a); reflexivity.
Qed.

(** X5.  Every projectile in a state the frame loop reaches is a laser of
    damage 17, a bullet of damage 25 or a mine of damage 150, and a mine has
    zero velocity. *)
Theorem projectiles_stay_well_formed (fuel : nat) (inputs : list Input)
    (w h : Z) (world : World) (p : Projectile) :
  Run_frames fuel inputs (Run_init w h) = Ok world ->
  In p (projectiles world) ->
  (p_type p = WeaponType.LASER /\ Projectile_GetDamage p = 17) \/
  (p_type p = WeaponType.BULLET /\ Projectile_GetDamage p = 25) \/
  (p_type p = WeaponType.MINE /\ Projectile_GetDamage p = 150 /\
   velocity (p_physics p) = mkVector2 F32.zero F32.zero).
Proof.
  intros Hrun Hin.
  destruct (Run_frames_ok fuel inputs _ _ (Run_init_ok w h) Hrun)
    as (_ & _ & _ & _ & _ & _ & Hf).
  rewrite Forall_forall in Hf. specialize (Hf p Hin).
  unfold projectile_ok, Projectile_GetDamage in *.
  destruct (p_type p); [auto | auto | auto | destruct Hf].
Qed.

(** X6.  At the end of every frame that completes, from any state, each
    remaining projectile is inside the viewport and has lifetime left: none
    of the tests of [Projectile::Update] holds for it. *)
Theorem projectiles_inside_after_frame (fuel : nat) (i : Input) (w w' : World) :
  frame fuel i w = Ok w' ->
  Forall (in_viewport (mkRenderer (C_WIDTH w') (C_HEIGHT w'))) (projectiles w').
Proof.
  unfold frame.
  set (w1 := restart_logic i _).
  destruct (shooting fuel i (player w1) (weapon_switch i (currentWeapon w1))
              (shotTimer w1) (projectiles w1)) as [sh | |]; simpl;
    try discriminate.
  set (w3 := spawn _). set (r := mkRenderer (C_WIDTH w3) (C_HEIGHT w3)).
  unfold collisions.
  destruct (projectile_asteroid_collisions
              (update_projectiles r (dt i) (projectiles w3)) (asteroids w3))
    as [[kept asts5] | |] eqn:HA; simpl; try discriminate.
  destruct (asteroid_ship_collisions r (dt i) (player w3) asts5) as [pl6 asts6].
  intros H; inversion H; subst; clear H. simpl. fold r.
  apply (derived_Forall eq (in_viewport r) (in_viewport r) _ _)
    with (2 := pass_A_kept _ _ _ _ HA).
  - intros p p' Hp <-. exact Hp.
  - apply (derived_Forall _ (fun _ => True) (in_viewport r) _ _)
      with (2 := update_projectiles_derived r (dt i) (projectiles w3)).
    + intros p p' _ [_ Hin]. exact Hin.
    + apply Forall_forall. trivial.
Qed.

(** X7.  The weapon key cycles through the three weapons: one press moves
    LASER to BULLET, BULLET to MINE and MINE to LASER, never to [COUNT], and
    three presses come back to the weapon one started from. *)
Theorem weapon_cycle (i : Input) (cw : WeaponType.t) :
  pressed_TAB i = true -> cw <> WeaponType.COUNT ->
  weapon_switch i cw =
    match cw with
    | WeaponType.LASER => WeaponType.BULLET
    | WeaponType.BULLET => WeaponType.MINE
    | _ => WeaponType.LASER
    end /\
  weapon_switch i cw <> cw /\
  weapon_switch i cw <> WeaponType.COUNT /\
  weapon_switch i (weapon_switch i (weapon_switch i cw)) = cw.
Proof.
  intros Ht Hc. unfold weapon_switch. rewrite Ht.
  destruct cw; try congruence; simpl; repeat split; discriminate.
Qed.

(** X8.  The shots of one frame are copies of one projectile: when the
    shooting block completes, the projectile list is the old one followed by
    [n] identical projectiles (same muzzle point, same velocity), with [n]
    at most the fuel and [n = 0] when the fire key is up or the player is
    dead; the timer left is below the interval when shots were possible. *)
Theorem shots_of_a_frame_are_copies (fuel : nat) (i : Input) (pl : PlayerShip)
    (cw : WeaponType.t) (timer timer' : float) (projs projs' : list Projectile) :
  shooting fuel i pl cw timer projs = Ok (timer', projs') ->
  exists n rate,
    Ship_GetFireRate pl cw = Ok rate /\
    projs' = projs ++ repeat (fire pl cw (F32.mul (Ship_GetSpacing pl cw) rate)) n /\
    (n <= fuel)%nat /\
    (Ship_IsAlive pl && down_SPACE i = false -> n = 0%nat) /\
    (Ship_IsAlive pl && down_SPACE i = true ->
     F32.ge timer' (F32.div (F32.of_int 1) rate) = false).
Proof.
  unfold shooting.
  destruct (Ship_GetFireRate pl cw) as [rate | |] eqn:Hrate;
    [| destruct (Ship_IsAlive pl && down_SPACE i); discriminate ..].
  destruct (Ship_IsAlive pl && down_SPACE i); cbn [bind]; intros H.
  - destruct (shoot_loop_shape fuel pl cw
                (F32.mul (Ship_GetSpacing pl cw) rate)
                (F32.div (F32.of_int 1) rate)
                (F32.add timer (dt i)) projs)
      as [(t' & n & Hn & Heq & Hlt) | Hout]; [| congruence].
    rewrite Heq in H. inversion H; subst; clear H.
    exists n, rate. repeat split; auto; intros; discriminate.
  - inversion H; subst; clear H. exists 0%nat, rate.
    cbn [repeat]. rewrite app_nil_r.
    repeat split; auto; try lia; intros; discriminate.
Qed.

(** X9.  The shooting loop does not end when the subtraction of the
    interval is absorbed by rounding: if the accumulated timer is at least
    the interval and [timer - interval] rounds back to [timer], the block
    runs out of every amount of fuel. *)
Theorem shooting_never_ends_when_absorbed (i : Input) (pl : PlayerShip)
    (cw : WeaponType.t) (rate timer : float) (projs : list Projectile) :
  Ship_IsAlive pl = true -> down_SPACE i = true ->
  Ship_GetFireRate pl cw = Ok rate ->
  let t := F32.add timer (dt i) in
  let interval := F32.div (F32.of_int 1) rate in
  F32.ge t interval = true ->
  F32.sub t interval = t ->
  forall fuel, shooting fuel i pl cw timer projs = OutOfFuel.
Proof.
  intros Ha Hs Hr t interval G A fuel.
  unfold shooting. rewrite Ha, Hs, Hr. cbn [andb bind].
  apply shoot_loop_absorbed; assumption.
Qed.

(** X10.  Pass A changes nothing when no projectile touches an asteroid;
    in particular with no asteroid, or no projectile, both lists come out
    as they went in. *)
Theorem pass_A_without_contact (ps : list Projectile) (asts : list Asteroid) :
  projectile_asteroid_collisions ps [] = Ok (ps, []) /\
  projectile_asteroid_collisions [] asts = Ok ([], asts) /\
  (Forall (fun p => Forall (fun a => hits p a = Ok false) asts) ps ->
   projectile_asteroid_collisions ps asts = Ok (ps, asts)).
Proof.
  split; [| split].
  - apply pass_A_untouched. apply Forall_forall. intros p _. constructor.
  - reflexivity.
  - apply pass_A_untouched.
Qed.

(** X11.  Pass A only erases and wears: for projectiles of non-negative
    damage, the projectiles kept are some of the given ones, unchanged and
    in order, and the asteroids left are some of the given ones, in order,
    each at the same place with the same size and base damage and with no
    more hit-points than before. *)
Theorem pass_A_only_erases_and_wears (ps kept : list Projectile)
    (asts asts' : list Asteroid) :
  Forall (fun p => 0 <= Projectile_GetDamage p) ps ->
  projectile_asteroid_collisions ps asts = Ok (kept, asts') ->
  derived eq ps kept /\ derived worn asts asts' /\
  (length kept <= length ps)%nat /\ (length asts' <= length asts)%nat.
Proof.
  intros Hd H.
  destruct (pass_A_derived ps Hd asts kept asts' H) as [H1 H2].
  repeat split; auto; eapply derived_length; eassumption.
Qed.

(** X12.  With a dead player pass B is the integration alone: the player
    comes out unchanged and the asteroids are exactly those [Update] keeps,
    moved. *)
Theorem pass_B_with_dead_player (r : Renderer) (d : float) (pl : PlayerShip)
    (asts : list Asteroid) :
  Ship_IsAlive pl = false ->
  asteroid_ship_collisions r d pl asts = (pl, integrate_asteroids r d asts).
Proof.
  apply pass_B_dead.
Qed.

(** X13.  The asteroids pass B leaves are, in order, images under
    [Asteroid::Update] of asteroids it was given, with the same hit-points,
    size and base damage, and each lies inside the viewport widened by its
    radius. *)
Theorem pass_B_survivors (r : Renderer) (d : float) (pl : PlayerShip)
    (asts : list Asteroid) :
  derived (fun a a' =>
             a' = fst (Asteroid_Update r a d) /\ in_margin r a' /\
             a_hp a' = a_hp a /\ a_size a' = a_size a /\
             a_baseDamage a' = a_baseDamage a)
          asts (snd (asteroid_ship_collisions r d pl asts)).
Proof.
  assert (H := pass_B_derived r d asts pl).
  induction H as [| a l l' _ IH | a a' l l' [Ha Hm] _ IH].
  - apply derived_nil.
  - apply derived_erase, IH.
  - apply derived_keep; [| exact IH].
    destruct (Asteroid_Update_fields r a d) as (_ & Hs & Hd & Hh).
    cbv zeta in Hs, Hd, Hh. subst a'.
    exact (conj eq_refl (conj Hm (conj Hh (conj Hs Hd)))).
Qed.

(** X14.  Pass B never raises the player's hit-points, and keeps the alive
    flag in step with them, when the asteroids' contact damages are not
    negative.  And once the player is dead the pass stops damaging it: if
    the asteroids [asts1] handled so far leave the player dead, the player
    after the whole pass is that one, and the asteroids [asts2] that
    follow, overlapping or not, are only integrated and culled. *)
Theorem pass_B_player_health (r : Renderer) (d : float) (pl : PlayerShip)
    (asts1 asts2 : list Asteroid) :
  Forall (fun a => 0 <= Asteroid_GetDamage a) (asts1 ++ asts2) ->
  Ship_IsAlive pl = (0 <? Ship_GetHP pl) ->
  let pl1 := fst (asteroid_ship_collisions r d pl asts1) in
  let pl' := fst (asteroid_ship_collisions r d pl (asts1 ++ asts2)) in
  Ship_GetHP pl' <= Ship_GetHP pl /\
  Ship_IsAlive pl' = (0 <? Ship_GetHP pl') /\
  (Ship_IsAlive pl1 = false ->
   asteroid_ship_collisions r d pl (asts1 ++ asts2) =
   (pl1, snd (asteroid_ship_collisions r d pl asts1) ++
         integrate_asteroids r d asts2)).
Proof.
  intros Hd Hc pl1 pl'.
  destruct (pass_B_health r d (asts1 ++ asts2) Hd pl Hc) as [H1 H2].
  split; [exact H2 | split; [exact H1 |]].
  intros Hdead. rewrite pass_B_app.
  fold pl1. rewrite (pass_B_dead r d asts2 pl1 Hdead). reflexivity.
Qed.

(** X15.  Between restarts the player's hit-points never go up: from a
    state the frame loop reaches, a frame in which the restart logic does
    not fire (player alive, or restart key not pressed) ends with at most
    the hit-points it started with. *)
Theorem player_hp_never_rises (fuel : nat) (inputs : list Input) (w h : Z)
    (i : Input) (w1 w2 : World) :
  Run_frames fuel inputs (Run_init w h) = Ok w1 ->
  frame fuel i w1 = Ok w2 ->
  Ship_IsAlive (player w1) = true \/ pressed_R i = false ->
  Ship_GetHP (player w2) <= Ship_GetHP (player w1).
Proof.
  intros Hrun Hf Hr.
  assert (Hok := Run_frames_ok fuel inputs _ _ (Run_init_ok w h) Hrun).
  destruct (frame_cases fuel i w1 Hok) as [(w' & Hf' & _ & _ & Hhp) | [Hf' _]];
    rewrite Hf' in Hf; [| discriminate].
  inversion Hf; subst. apply Hhp.
  destruct Hr as [Hr | Hr]; rewrite Hr; [reflexivity | apply andb_false_r].
Qed.

(** X16.  Restart within the frame.  While the player is alive the
    restart key changes nothing: the frame is the one without the key.  For
    a dead player it discards both populations before anything else
    happens, so a frame that completes ends with at most one asteroid (a
    fresh spawn), with at most the projectiles fired in that very frame,
    none if the fire key is up, and with the weapon the weapon key selects. *)
Theorem restart_within_frame (fuel : nat) (i : Input) (w : World) :
  (Ship_IsAlive (player w) = true ->
   frame fuel i w = frame fuel (without_R i) w) /\
  (Ship_IsAlive (player w) = false -> pressed_R i = true ->
   forall w', frame fuel i w = Ok w' ->
     (length (asteroids w') <= 1)%nat /\
     (length (projectiles w') <= fuel)%nat /\
     (down_SPACE i = false -> projectiles w' = []) /\
     currentWeapon w' = weapon_switch i (currentWeapon w)).
Proof.
  split.
  - intros Ha. unfold frame, restart_logic, Ship_IsAlive in *. simpl.
    rewrite !PlayerShip_Update_alive, Ha. reflexivity.
  - intros Hd HR w' Hf.
    split; [| split; [| split]];
      [| | | rewrite (frame_weapon fuel i w w' Hf); reflexivity].
    all: revert Hf; unfold frame, restart_logic, Ship_IsAlive in *; simpl;
      rewrite PlayerShip_Update_alive, Hd, HR; simpl;
      destruct (RandomFloat C_SPAWN_MIN C_SPAWN_MAX (rng w)) as [si g]; simpl;
      match goal with
      | |- context [shooting ?f ?j ?pl ?cw ?t []] =>
          destruct (shooting f j pl cw t []) as [[t' projs'] | |] eqn:Esh
      end; simpl; try discriminate;
      set (w3 := spawn _);
      set (r := mkRenderer (C_WIDTH w3) (C_HEIGHT w3));
      unfold collisions;
      destruct (projectile_asteroid_collisions
                  (update_projectiles r (dt i) (projectiles w3)) (asteroids w3))
        as [[kept asts5] | |] eqn:HA; simpl; try discriminate;
      assert (HB := pass_B_derived r (dt i) asts5 (player w3));
      destruct (asteroid_ship_collisions r (dt i) (player w3) asts5)
        as [pl6 asts6]; simpl in HB;
      intros Hf; inversion Hf; subst; clear Hf; simpl;
      assert (Hps : projectiles w3 = projs')
        by (unfold w3; rewrite spawn_projectiles; reflexivity);
      assert (Hk := derived_length _ _ _ (pass_A_kept _ _ _ _ HA));
      assert (Hu := derived_length _ _ _
                      (update_projectiles_derived r (dt i) (projectiles w3)));
      destruct (shots_shape_aux fuel i _ _ _ _ _ _ Esh) as (n & Hn & Hlen & Hidle).
    + assert (Hl3 : (length (asteroids w3) <= 1)%nat)
        by (unfold w3;
            match goal with
            | |- (length (asteroids (spawn ?x)) <= 1)%nat =>
                exact (spawn_asteroids_length x)
            end).
      assert (Hl5 := pass_A_asteroids_length _ _ _ _ HA).
      apply derived_length in HB. lia.
    + rewrite Hps in Hu, Hk. simpl in Hlen. lia.
    + intros Hs. specialize (Hidle Hs). rewrite Hps in Hu, Hk.
      rewrite Hidle in Hk. simpl in Hk.
      destruct kept; [reflexivity | simpl in Hk; lia].
Qed.

(** X17.  Controls do not reach a dead player: when the player is dead and
    restart is not pressed, the whole frame is the one with no movement,
    rotation or fire key held; only the frame time and the mode keys
    matter. *)
Theorem dead_player_ignores_controls (fuel : nat) (i : Input) (w : World) :
  Ship_IsAlive (player w) = false -> pressed_R i = false ->
  frame fuel i w = frame fuel (mode_keys_only i) w.
Proof.
  intros Hd HR. unfold frame.
  rewrite <- (PlayerShip_Update_dead_keys (player w) i Hd).
  change (dt (mode_keys_only i)) with (dt i).
  rewrite (restart_logic_not_pressed (mode_keys_only i)) by exact HR.
  rewrite (restart_logic_not_pressed i) by exact HR.
  cbn [player].
  rewrite (shooting_dead fuel i (mode_keys_only i)); [reflexivity |].
  unfold Ship_IsAlive. rewrite PlayerShip_Update_alive. exact Hd.
Qed.

(** X18.  [MakeAsteroid] yields the class of the requested shape (triangle
    SMALL, square MEDIUM, pentagon LARGE, giga GIGA); in RANDOM mode the
    class follows the draw: below 45 SMALL, below 75 MEDIUM, below 95 LARGE,
    anything else GIGA.  The asteroid starts with the full hit-points of its
    class.  The call consumes six results of [rand] and one of
    [GetRandomValue], two in RANDOM mode. *)
Theorem MakeAsteroid_class (w h : Z) (shape : AsteroidShape.t) (g : Rng) :
  let a := fst (MakeAsteroid w h shape g) in
  let g' := snd (MakeAsteroid w h shape g) in
  a_size a =
    match class_of_shape shape with
    | Some c => c
    | None => class_of_draw (GetRandomValue_at (grv_calls g) 0 99)
    end /\
  a_hp a = Asteroid_GetMaxHP a /\
  a_baseDamage a = class_baseDamage (a_size a) /\
  rand_calls g' = (6 + rand_calls g)%nat /\
  grv_calls g' =
    match class_of_shape shape with
    | Some _ => (1 + grv_calls g)%nat
    | None => (2 + grv_calls g)%nat
    end.
Proof.
  assert (K : forall d s g0,
            let a := fst (derived_ctor d s w h g0) in
            a_size a = s /\ a_hp a = Asteroid_GetMaxHP a /\ a_baseDamage a = d /\
            rand_calls (snd (derived_ctor d s w h g0)) = (6 + rand_calls g0)%nat /\
            grv_calls (snd (derived_ctor d s w h g0)) = (1 + grv_calls g0)%nat).
  { intros d s g0 a.
    destruct (derived_ctor_fields d s w h g0) as (_ & Hs & Hb & Hh).
    fold a in Hs, Hb, Hh. rewrite (derived_ctor_rng d s w h g0).
    unfold Asteroid_GetMaxHP. rewrite Hs, Hh. repeat split; auto. }
  unfold MakeAsteroid, TriangleAsteroid, SquareAsteroid, PentagonAsteroid,
    GigaAsteroid, class_of_draw.
  destruct shape; simpl class_of_shape; cbv zeta.
  - destruct (K 5 SMALL g) as (H1 & H2 & H3 & H4 & H5).
    rewrite H1 in *. repeat split; assumption.
  - destruct (K 10 MEDIUM g) as (H1 & H2 & H3 & H4 & H5).
    rewrite H1 in *. repeat split; assumption.
  - destruct (K 15 LARGE g) as (H1 & H2 & H3 & H4 & H5).
    rewrite H1 in *. repeat split; assumption.
  - destruct (K 10 GIGA g) as (H1 & H2 & H3 & H4 & H5).
    rewrite H1 in *. repeat split; assumption.
  - unfold GetRandomValue.
    set (g1 := mkRng (rand_calls g) (S (grv_calls g))).
    destruct (GetRandomValue_at (grv_calls g) 0 99 <? 45);
      [destruct (K 5 SMALL g1) as (H1 & H2 & H3 & H4 & H5);
       rewrite H1 in *; repeat split; assumption |].
    destruct (GetRandomValue_at (grv_calls g) 0 99 <? 75);
      [destruct (K 10 MEDIUM g1) as (H1 & H2 & H3 & H4 & H5);
       rewrite H1 in *; repeat split; assumption |].
    destruct (GetRandomValue_at (grv_calls g) 0 99 <? 95);
      [destruct (K 15 LARGE g1) as (H1 & H2 & H3 & H4 & H5);
       rewrite H1 in *; repeat split; assumption |].
    destruct (K 10 GIGA g1) as (H1 & H2 & H3 & H4 & H5).
    rewrite H1 in *. repeat split; assumption.
Qed.

(** X19.  Frames without the fire key need no fuel: a run whose inputs
    never hold the fire key completes, even with the shooting loop given no
    fuel at all. *)
Theorem idle_run_completes (inputs : list Input) (w h : Z) :
  Forall (fun i => down_SPACE i = false) inputs ->
  exists world, Run_frames 0 inputs (Run_init w h) = Ok world.
Proof.
  intros Hidle.
  destruct (Run_frames_cases 0 inputs (Run_init w h) (Run_init_ok w h))
    as [Hr | [_ (i & Hi & Hs)]]; [exact Hr |].
  rewrite Forall_forall in Hidle. rewrite (Hidle i Hi) in Hs. discriminate.
Qed.

(** X20.  A projectile with zero velocity, as every mine has, stays where
    it is: for a finite frame time its position after [Update] is its
    position before (coordinates other than the negative zero). *)
Theorem still_projectile_never_drifts (r : Renderer) (p : Projectile)
    (d : float) :
  velocity (p_physics p) = mkVector2 F32.zero F32.zero ->
  F32.is_finite d = true ->
  v2x (Projectile_GetPosition p) <> S754_zero true ->
  v2y (Projectile_GetPosition p) <> S754_zero true ->
  Projectile_GetPosition (fst (Projectile_Update r p d)) =
  Projectile_GetPosition p.
Proof.
  intros Hv Hd Hx Hy.
  assert (E : position (p_transform (fst (Projectile_Update r p d))) =
              Vector2Add (position (p_transform p))
                         (Vector2Scale (velocity (p_physics p)) d)).
  { unfold Projectile_Update.
    match goal with
    | |- context [if ?c then _ else _] => destruct c
    end; [reflexivity |].
    match goal with
    | |- context [if ?c then _ else _] => destruct c
    end; reflexivity. }
  unfold Projectile_GetPosition in *. rewrite E, Hv.
  unfold Vector2Add, Vector2Scale. cbn [v2x v2y].
  destruct (mul_zero_finite d Hd) as [s Hs]. rewrite Hs.
  rewrite (add_zero_keeps _ s Hx), (add_zero_keeps _ s Hy).
  destruct (position (p_transform p)). reflexivity.
Qed.

(** X21.  The projectiles left by the integrate-and-cull step are, in
    order, the moved images of projectiles it was given: same damage, kind,
    velocity and heading, each inside the viewport with lifetime left. *)
Theorem update_projectiles_survivors (r : Renderer) (d : float)
    (ps : list Projectile) :
  derived (fun p p' =>
             p' = fst (Projectile_Update r p d) /\ in_viewport r p' /\
             p_baseDamage p' = p_baseDamage p /\ p_type p' = p_type p /\
             p_physics p' = p_physics p /\
             rotation (p_transform p') = rotation (p_transform p))
          ps (update_projectiles r d ps) /\
  (length (update_projectiles r d ps) <= length ps)%nat.
Proof.
  assert (H := update_projectiles_derived r d ps).
  split; [| eapply derived_length; eassumption].
  induction H as [| a l l' _ IH | a a' l l' [Ha Hm] _ IH].
  - apply derived_nil.
  - apply derived_erase, IH.
  - apply derived_keep; [| exact IH].
    destruct (Projectile_Update_fields r a d) as (Hp & Hd & Ht & Hr).
    cbv zeta in Hp, Hd, Ht, Hr. subst a'.
    exact (conj eq_refl (conj Hm (conj Hd (conj Ht (conj Hp Hr))))).
Qed.

Lemma restart_logic_lengths (i : Input) (w : World) :
  (length (asteroids (restart_logic i w)) <= length (asteroids w))%nat /\
  (length (projectiles (restart_logic i w)) <= length (projectiles w))%nat.
Proof.
  unfold restart_logic.
  destruct (negb (Ship_IsAlive (player w)) && pressed_R i); [| lia].
  destruct (RandomFloat C_SPAWN_MIN C_SPAWN_MAX (rng w)). simpl. lia.
Qed.

(** X22.  A frame adds at most one asteroid, and at most as many
    projectiles as the shooting loop made turns (none when the fire key is
    up): everything else in the frame only removes. *)
Theorem frame_population_growth (fuel : nat) (i : Input) (w w' : World) :
  frame fuel i w = Ok w' ->
  (length (asteroids w') <= S (length (asteroids w)))%nat /\
  (length (projectiles w') <= length (projectiles w) + fuel)%nat /\
  (down_SPACE i = false ->
   (length (projectiles w') <= length (projectiles w))%nat).
Proof.
  unfold frame.
  set (w0 := mkWorld (PlayerShip_Update (player w) i) (asteroids w)
               (projectiles w) (currentShape w) (currentWeapon w)
               (F32.add (spawnTimer w) (dt i)) (spawnInterval w) (shotTimer w)
               (C_WIDTH w) (C_HEIGHT w) (rng w)).
  destruct (restart_logic_lengths i w0) as [La Lp]. simpl in La, Lp.
  set (w1 := restart_logic i w0) in *.
  destruct (shooting fuel i (player w1) (weapon_switch i (currentWeapon w1))
              (shotTimer w1) (projectiles w1)) as [[t' projs'] | |] eqn:Esh;
    simpl; try discriminate.
  destruct (shots_shape_aux fuel i _ _ _ _ _ _ Esh) as (n & Hn & Hlen & Hidle).
  set (w2 := mkWorld (player w1) (asteroids w1) projs' _ _ _ _ _ _ _ _).
  assert (Hs := spawn_asteroids_length w2).
  assert (Hps := spawn_projectiles w2).
  set (w3 := spawn w2) in *. simpl in Hs, Hps.
  set (r := mkRenderer (C_WIDTH w3) (C_HEIGHT w3)).
  unfold collisions.
  destruct (projectile_asteroid_collisions
              (update_projectiles r (dt i) (projectiles w3)) (asteroids w3))
    as [[kept asts5] | |] eqn:HA; simpl; try discriminate.
  assert (HB := pass_B_derived r (dt i) asts5 (player w3)).
  destruct (asteroid_ship_collisions r (dt i) (player w3) asts5) as [pl6 asts6].
  simpl in HB. apply derived_length in HB.
  intros H. injection H as H. rewrite <- H. simpl.
  assert (Hk := derived_length _ _ _ (pass_A_kept _ _ _ _ HA)).
  assert (Hu := derived_length _ _ _
                  (update_projectiles_derived r (dt i) (projectiles w3))).
  assert (Hl5 := pass_A_asteroids_length _ _ _ _ HA).
  assert (Hlp : length (projectiles w3) = length projs')
    by (rewrite Hps; reflexivity).
  split; [lia | split; [lia |]].
  intros Hsp.
  assert (Hli : length projs' = length (projectiles w1))
    by (rewrite (Hidle Hsp); reflexivity).
  lia.
Qed.

End Game.

(** ** Instances in the concrete environment *)

Lemma pass_A_first_contact_witness :
  let p := still_projectile 100 100 17 WeaponType.LASER in
  let far := still_asteroid 500 500 SMALL 5 25 in
  let a := still_asteroid 100 100 SMALL 5 25 in
  let b := still_asteroid 101 100 GIGA 10 1000 in
  Forall (fun x => hits p x = Ok false) [far] /\
  hits p a = Ok true /\
  hits p b = Ok true /\
  projectile_asteroid_collisions [p] [far; a; b] =
    Ok ([], [far; still_asteroid 100 100 SMALL 5 8; b]).
Proof.
  intros p far a b.
  assert (H1 : Forall (fun x => hits p x = Ok false) [far])
    by (constructor; [reflexivity | constructor]).
  assert (H2 : hits p a = Ok true) by reflexivity.
  split; [exact H1 | split; [exact H2 | split; [reflexivity |]]].
  exact (proj2 (proj2 (proj2 (pass_A_first_contact p [] [far] [b] a H1 H2)))).
Defined.


Lemma destroyed_asteroid_spares_player_witness :
  let pl := PlayerShip_ctor Sample.texture_height 900 900 in
  let q := still_projectile 100 100 25 WeaponType.BULLET in
  let p := still_projectile 450 450 17 WeaponType.LASER in
  let a := still_asteroid 450 450 SMALL 5 17 in
  let i := idle_input sixtieth in
  let run := frame Sample.cosf Sample.sinf Sample.rand_at Sample.RAND_MAX
               Sample.GetRandomValue_at Sample.texture_height 0 i in
  exists w4 w' q' p',
    run (arena pl [a] [q; p]) = Ok w' /\
    before_collisions Sample.cosf Sample.sinf Sample.rand_at Sample.RAND_MAX
      Sample.GetRandomValue_at Sample.texture_height 0 i (arena pl [a] [q; p]) = Ok w4 /\
    projectiles w4 = [q'] ++ p' :: [] /\ asteroids w4 = [a] /\
    hits p' a = Ok true /\ a_hp a - Projectile_GetDamage p' <= 0 /\
    touches (player w4) a = true /\
    player w' = player w4 /\ Ship_GetHP (player w') = 100 /\
    asteroids w' = [] /\ projectiles w' = [q'] /\
    (exists w'', run (arena pl [a] [q]) = Ok w'' /\
                 Ship_GetHP (player w'') = 95).
Proof.
  intros pl q p a i run.
  set (r := mkRenderer 900 900).
  set (q' := fst (Projectile_Update r q sixtieth)).
  set (p' := fst (Projectile_Update r p sixtieth)).
  destruct (run (arena pl [a] [q; p])) as [w' | |] eqn:Hf;
    [| vm_compute in Hf; discriminate ..].
  destruct (before_collisions Sample.cosf Sample.sinf Sample.rand_at
              Sample.RAND_MAX Sample.GetRandomValue_at Sample.texture_height 0 i (arena pl [a] [q; p]))
    as [w4 | |] eqn:Hb; [| vm_compute in Hb; discriminate ..].
  assert (Hb' := Hb). vm_compute in Hb'. injection Hb' as Hb'.
  assert (Hps : projectiles w4 = [q'] ++ p' :: [])
    by (rewrite <- Hb'; reflexivity).
  assert (Has : asteroids w4 = [a]) by (rewrite <- Hb'; reflexivity).
  assert (H1 : projectile_asteroid_collisions [q'] (asteroids w4) =
               Ok ([q'], [] ++ a :: []))
    by (rewrite Has; reflexivity).
  assert (Ha : hits p' a = Ok true) by reflexivity.
  assert (Hd : a_hp a - Projectile_GetDamage p' <= 0) by (simpl; lia).
  destruct (destroyed_asteroid_spares_player Sample.cosf Sample.sinf
              Sample.rand_at Sample.RAND_MAX Sample.GetRandomValue_at
              Sample.texture_height 0 i _ w4 w' [q'] p' [] [q'] [] [] a
              Hf Hb Hps H1 (Forall_nil _) Ha Hd)
    as (kept2 & asts2 & E2 & Hk & HB & Hsame).
  injection E2 as Ek Ea. subst kept2 asts2.
  specialize (Hsame (Forall_nil _)).
  simpl in HB. injection HB as _ HBa.
  exists w4, w', q', p'.
  split; [reflexivity | split; [reflexivity | split; [exact Hps |
    split; [exact Has | split; [exact Ha | split; [exact Hd |]]]]]].
  split; [rewrite <- Hb'; reflexivity |].
  split; [exact Hsame |].
  split; [rewrite Hsame, <- Hb'; reflexivity |].
  split; [symmetry; exact HBa |].
  split; [exact Hk |].
  destruct (run (arena pl [a] [q])) as [w'' | |] eqn:Hg;
    [| vm_compute in Hg; discriminate ..].
  exists w''. split; [reflexivity |].
  vm_compute in Hg. injection Hg as Hg. rewrite <- Hg. reflexivity.
Defined.

Lemma dead_player_stays_dead_witness :
  let dead := Ship_TakeDamage (PlayerShip_ctor Sample.texture_height 900 900) 100 in
  let ops := [OpUpdate (fire_input sixtieth); OpTakeDamage (-500);
              OpUpdate (idle_input sixtieth); OpTakeDamage 1] in
  s_alive dead = false /\ s_alive (apply_ops dead ops) = false.
Proof.
  intros dead ops.
  assert (H : s_alive dead = false) by reflexivity.
  split; [exact H |].
  exact (proj1 (proj2 (proj2
           (dead_player_stays_dead Sample.cosf Sample.sinf Sample.rand_at
              Sample.RAND_MAX Sample.GetRandomValue_at Sample.texture_height)))
           dead ops H).
Defined.






(** The two culling rules on the same point, one pixel left of the
    viewport: the projectile is removed, the asteroid is kept. *)
Lemma culling_margin_example :
  let r := mkRenderer 900 900 in
  snd (Projectile_Update r (still_projectile (-1) 10 17 WeaponType.LASER) sixtieth)
    = true /\
  snd (Asteroid_Update r (still_asteroid (-1) 10 SMALL 5 25) sixtieth) = true.
Proof.
  split; reflexivity.
Qed.

(** The triangle is the one class whose own radius is the spawn offset. *)
Lemma triangle_asteroid_radius (cosf sinf : float -> float)
    (rand_at : nat -> Z) (RAND_MAX : Z) (grv : nat -> Z -> Z -> Z)
    (w h : Z) (g : Rng) :
  Asteroid_GetRadius (fst (TriangleAsteroid cosf sinf rand_at RAND_MAX grv w h g))
  = F32.of_int 16.
Proof.
  destruct (spawn_offset_is_16 cosf sinf rand_at RAND_MAX grv 5 SMALL w h g)
    as [Hr _].
  exact Hr.
Qed.

(** C9, on the code.  A square asteroid (MEDIUM, radius 32) that [init]
    places on the top edge starts at y = -16: its distance from the edge
    along the outward normal is 16, the radius of the default size SMALL,
    not its own radius.  This holds for every screen size and every state
    of [rand]. *)
Theorem square_asteroid_spawn_offset (cosf sinf : float -> float)
    (rand_at : nat -> Z) (RAND_MAX : Z) (w h : Z) (g : Rng) :
  let a := fst (SquareAsteroid cosf sinf rand_at RAND_MAX (fun _ _ _ => 0) w h g) in
  let y := v2y (Asteroid_GetPosition a) in
  y = F32.opp (F32.of_int 16) /\
  F32.sub F32.zero y = F32.of_int 16 /\
  Asteroid_GetRadius a = F32.of_int 32 /\
  F32.lt (F32.sub F32.zero y) (Asteroid_GetRadius a) = true.
Proof.
  intros a y.
  destruct (spawn_offset_is_16 cosf sinf rand_at RAND_MAX (fun _ _ _ => 0)
              10 MEDIUM w h g) as [Hr Hy].
  cbv zeta beta iota in Hy.
  assert (Ey : y = F32.opp (F32.of_int 16)) by exact Hy.
  assert (Er : Asteroid_GetRadius a = F32.of_int 32) by exact Hr.
  rewrite Ey, Er. repeat split.
Qed.

Lemma contact_damage_per_class_witness :
  let pl := PlayerShip_ctor Sample.texture_height 900 900 in
  let a := still_asteroid 600 450 GIGA 10 1000 in
  touches pl a = true /\
  Ship_GetHP (fst (fst (remove_collision (mkRenderer 900 900) sixtieth pl a))) = 0 /\
  Ship_IsAlive (fst (fst (remove_collision (mkRenderer 900 900) sixtieth pl a))) = false.
Proof.
  intros pl a.
  assert (H : touches pl a = true) by reflexivity.
  split; [exact H |].
  exact (proj2 (proj2
           (contact_damage_per_class Sample.cosf Sample.sinf Sample.rand_at
              Sample.RAND_MAX Sample.GetRandomValue_at Sample.texture_height))
           (mkRenderer 900 900) sixtieth pl a eq_refl eq_refl eq_refl eq_refl H).
Defined.

(** ** Instances of the further properties *)

Lemma asteroid_population_bounded_witness :
  exists world,
    Run_frames Sample.cosf Sample.sinf Sample.rand_at Sample.RAND_MAX
      Sample.GetRandomValue_at Sample.texture_height 5 sample_inputs
      (Run_init Sample.rand_at Sample.RAND_MAX Sample.texture_height 900 900)
    = Ok world /\
    (length (asteroids world) <= 150)%nat.
Proof.
  destruct (Run_frames Sample.cosf Sample.sinf Sample.rand_at Sample.RAND_MAX
              Sample.GetRandomValue_at Sample.texture_height 5 sample_inputs
              (Run_init Sample.rand_at Sample.RAND_MAX Sample.texture_height
                 900 900)) as [world | |] eqn:Hrun;
    [| vm_compute in Hrun; discriminate ..].
  exists world. split; [reflexivity |].
  exact (asteroid_population_bounded _ _ _ _ _ _ _ _ _ _ _ Hrun).
Defined.

Lemma player_health_consistent_witness :
  exists world,
    Run_frames Sample.cosf Sample.sinf Sample.rand_at Sample.RAND_MAX
      Sample.GetRandomValue_at Sample.texture_height 5 sample_inputs
      (Run_init Sample.rand_at Sample.RAND_MAX Sample.texture_height 900 900)
    = Ok world /\
    (Ship_IsAlive (player world) = true <-> 0 < Ship_GetHP (player world)) /\
    Ship_GetHP (player world) <= 100.
Proof.
  destruct (Run_frames Sample.cosf Sample.sinf Sample.rand_at Sample.RAND_MAX
              Sample.GetRandomValue_at Sample.texture_height 5 sample_inputs
              (Run_init Sample.rand_at Sample.RAND_MAX Sample.texture_height
                 900 900)) as [world | |] eqn:Hrun;
    [| vm_compute in Hrun; discriminate ..].
  exists world. split; [reflexivity |].
  exact (player_health_consistent _ _ _ _ _ _ _ _ _ _ _ Hrun).
Defined.

Lemma asteroids_stay_well_formed_witness :
  exists world a,
    Run_frames Sample.cosf Sample.sinf Sample.rand_at Sample.RAND_MAX
      Sample.GetRandomValue_at Sample.texture_height 5 sample_inputs
      (Run_init Sample.rand_at Sample.RAND_MAX Sample.texture_height 900 900)
    = Ok world /\
    In a (asteroids world) /\
    0 < a_hp a <= Asteroid_GetMaxHP a /\
    Asteroid_GetDamage a = class_damage (a_size a).
Proof.
  destruct (Run_frames Sample.cosf Sample.sinf Sample.rand_at Sample.RAND_MAX
              Sample.GetRandomValue_at Sample.texture_height 5 sample_inputs
              (Run_init Sample.rand_at Sample.RAND_MAX Sample.texture_height
                 900 900)) as [world | |] eqn:Hrun;
    [| vm_compute in Hrun; discriminate ..].
  assert (Hin : exists a, In a (asteroids world)).
  { assert (Hc := Hrun). vm_compute in Hc. injection Hc as Hc.
    rewrite <- Hc. eexists. left. reflexivity. }
  destruct Hin as [a Hin].
  exists world, a. split; [reflexivity | split; [exact Hin |]].
  exact (asteroids_stay_well_formed _ _ _ _ _ _ _ _ _ _ _ a Hrun Hin).
Defined.

Lemma projectiles_stay_well_formed_witness :
  exists world p,
    Run_frames Sample.cosf Sample.sinf Sample.rand_at Sample.RAND_MAX
      Sample.GetRandomValue_at Sample.texture_height 5 sample_inputs
      (Run_init Sample.rand_at Sample.RAND_MAX Sample.texture_height 900 900)
    = Ok world /\
    In p (projectiles world) /\
    ((p_type p = WeaponType.LASER /\ Projectile_GetDamage p = 17) \/
     (p_type p = WeaponType.BULLET /\ Projectile_GetDamage p = 25) \/
     (p_type p = WeaponType.MINE /\ Projectile_GetDamage p = 150 /\
      velocity (p_physics p) = mkVector2 F32.zero F32.zero)).
Proof.
  destruct (Run_frames Sample.cosf Sample.sinf Sample.rand_at Sample.RAND_MAX
              Sample.GetRandomValue_at Sample.texture_height 5 sample_inputs
              (Run_init Sample.rand_at Sample.RAND_MAX Sample.texture_height
                 900 900)) as [world | |] eqn:Hrun;
    [| vm_compute in Hrun; discriminate ..].
  assert (Hin : exists p, In p (projectiles world)).
  { assert (Hc := Hrun). vm_compute in Hc. injection Hc as Hc.
    rewrite <- Hc. eexists. left. reflexivity. }
  destruct Hin as [p Hin].
  exists world, p. split; [reflexivity | split; [exact Hin |]].
  exact (projectiles_stay_well_formed _ _ _ _ _ _ _ _ _ _ _ p Hrun Hin).
Defined.

Lemma projectiles_inside_after_frame_witness :
  exists w',
    frame Sample.cosf Sample.sinf Sample.rand_at Sample.RAND_MAX
      Sample.GetRandomValue_at Sample.texture_height 5
      (fire_input (F32.div (F32.of_int 1) (F32.of_int 18)))
      (Run_init Sample.rand_at Sample.RAND_MAX Sample.texture_height 900 900)
    = Ok w' /\
    length (projectiles w') = 1%nat /\
    Forall (in_viewport (mkRenderer (C_WIDTH w') (C_HEIGHT w'))) (projectiles w').
Proof.
  destruct (frame Sample.cosf Sample.sinf Sample.rand_at Sample.RAND_MAX
              Sample.GetRandomValue_at Sample.texture_height 5
              (fire_input (F32.div (F32.of_int 1) (F32.of_int 18)))
              (Run_init Sample.rand_at Sample.RAND_MAX Sample.texture_height
                 900 900)) as [w' | |] eqn:Hf;
    [| vm_compute in Hf; discriminate ..].
  exists w'. split; [reflexivity | split].
  - assert (Hc := Hf). vm_compute in Hc. injection Hc as Hc.
    rewrite <- Hc. reflexivity.
  - exact (projectiles_inside_after_frame _ _ _ _ _ _ _ _ _ _ Hf).
Defined.

Lemma weapon_cycle_witness :
  let i := tab_input sixtieth false in
  pressed_TAB i = true /\ WeaponType.MINE <> WeaponType.COUNT /\
  weapon_switch i WeaponType.MINE = WeaponType.LASER /\
  weapon_switch i (weapon_switch i (weapon_switch i WeaponType.MINE)) =
    WeaponType.MINE.
Proof.
  intros i.
  assert (H1 : pressed_TAB i = true) by reflexivity.
  assert (H2 : WeaponType.MINE <> WeaponType.COUNT) by discriminate.
  destruct (weapon_cycle i WeaponType.MINE H1 H2) as (E1 & _ & _ & E3).
  exact (conj H1 (conj H2 (conj E1 E3))).
Defined.

Lemma shots_of_a_frame_are_copies_witness :
  let pl := PlayerShip_ctor Sample.texture_height 900 900 in
  exists timer' projs',
    shooting Sample.cosf Sample.sinf 30 (fire_input (F32.of_int 1)) pl
             WeaponType.LASER F32.zero [] = Ok (timer', projs') /\
    length projs' = 17%nat /\
    exists n rate,
      Ship_GetFireRate pl WeaponType.LASER = Ok rate /\
      projs' = [] ++ repeat (fire Sample.cosf Sample.sinf pl WeaponType.LASER
                               (F32.mul (Ship_GetSpacing pl WeaponType.LASER) rate)) n /\
      (n <= 30)%nat /\
      (Ship_IsAlive pl && down_SPACE (fire_input (F32.of_int 1)) = false ->
       n = 0%nat) /\
      (Ship_IsAlive pl && down_SPACE (fire_input (F32.of_int 1)) = true ->
       F32.ge timer' (F32.div (F32.of_int 1) rate) = false).
Proof.
  intros pl.
  destruct (shooting Sample.cosf Sample.sinf 30 (fire_input (F32.of_int 1)) pl
              WeaponType.LASER F32.zero []) as [[timer' projs'] | |] eqn:Hsh;
    [| vm_compute in Hsh; discriminate ..].
  exists timer', projs'. split; [reflexivity | split].
  - assert (Hc := Hsh). vm_compute in Hc. injection Hc as _ Hc.
    rewrite <- Hc. reflexivity.
  - exact (shots_of_a_frame_are_copies _ _ _ _ _ _ _ _ _ _ Hsh).
Defined.

Lemma shooting_never_ends_when_absorbed_witness :
  let pl := PlayerShip_ctor Sample.texture_height 900 900 in
  let i := fire_input (F32.of_int 2097152) in
  let interval := F32.div (F32.of_int 1) (F32.of_int 18) in
  F32.ge (F32.add F32.zero (dt i)) interval = true /\
  F32.sub (F32.add F32.zero (dt i)) interval = F32.add F32.zero (dt i) /\
  forall fuel,
    shooting Sample.cosf Sample.sinf fuel i pl WeaponType.LASER F32.zero []
    = OutOfFuel.
Proof.
  intros pl i interval.
  assert (H1 : F32.ge (F32.add F32.zero (dt i)) interval = true) by reflexivity.
  assert (H2 : F32.sub (F32.add F32.zero (dt i)) interval
               = F32.add F32.zero (dt i)) by reflexivity.
  split; [exact H1 | split; [exact H2 |]].
  exact (shooting_never_ends_when_absorbed Sample.cosf Sample.sinf i pl
           WeaponType.LASER (F32.of_int 18) F32.zero []
           eq_refl eq_refl eq_refl H1 H2).
Defined.

Lemma pass_A_without_contact_witness :
  let p := still_projectile 100 100 17 WeaponType.LASER in
  let q := still_projectile 800 100 150 WeaponType.MINE in
  let a := still_asteroid 500 500 GIGA 10 1000 in
  Forall (fun x => Forall (fun y => hits x y = Ok false) [a]) [p; q] /\
  projectile_asteroid_collisions [p; q] [a] = Ok ([p; q], [a]).
Proof.
  intros p q a.
  assert (H : Forall (fun x => Forall (fun y => hits x y = Ok false) [a]) [p; q]).
  { repeat constructor. }
  split; [exact H |].
  exact (proj2 (proj2 (pass_A_without_contact [p; q] [a])) H).
Defined.

Lemma pass_A_only_erases_and_wears_witness :
  let p := still_projectile 100 100 17 WeaponType.LASER in
  let far := still_asteroid 500 500 SMALL 5 25 in
  let a := still_asteroid 100 100 SMALL 5 25 in
  let a' := still_asteroid 100 100 SMALL 5 8 in
  Forall (fun x => 0 <= Projectile_GetDamage x) [p] /\
  projectile_asteroid_collisions [p] [far; a] = Ok ([], [far; a']) /\
  derived eq [p] [] /\ derived worn [far; a] [far; a'] /\
  (length (@nil Projectile) <= length [p])%nat /\
  (length [far; a'] <= length [far; a])%nat.
Proof.
  intros p far a a'.
  assert (H1 : Forall (fun x => 0 <= Projectile_GetDamage x) [p]).
  { constructor; [simpl; lia | constructor]. }
  assert (H2 : projectile_asteroid_collisions [p] [far; a] = Ok ([], [far; a']))
    by reflexivity.
  split; [exact H1 | split; [exact H2 |]].
  exact (pass_A_only_erases_and_wears [p] [] [far; a] [far; a'] H1 H2).
Defined.

Lemma pass_B_with_dead_player_witness :
  let dead := Ship_TakeDamage (PlayerShip_ctor Sample.texture_height 900 900) 100 in
  let a := still_asteroid 450 450 MEDIUM 10 100 in
  let b := still_asteroid 2000 450 SMALL 5 25 in
  let r := mkRenderer 900 900 in
  Ship_IsAlive dead = false /\ touches dead a = true /\
  asteroid_ship_collisions r sixtieth dead [a; b] =
    (dead, [fst (Asteroid_Update r a sixtieth)]).
Proof.
  intros dead a b r.
  assert (H : Ship_IsAlive dead = false) by reflexivity.
  split; [exact H | split; [reflexivity |]].
  exact (pass_B_with_dead_player r sixtieth dead [a; b] H).
Defined.

Lemma pass_B_player_health_witness :
  let pl := PlayerShip_ctor Sample.texture_height 900 900 in
  let a := still_asteroid 450 450 MEDIUM 10 100 in
  let b := still_asteroid 451 450 GIGA 10 1000 in
  let c := still_asteroid 452 450 GIGA 10 1000 in
  let r := mkRenderer 900 900 in
  let pl1 := fst (asteroid_ship_collisions r sixtieth pl [a; b]) in
  Forall (fun x => 0 <= Asteroid_GetDamage x) ([a; b] ++ [c]) /\
  Ship_IsAlive pl = (0 <? Ship_GetHP pl) /\
  Ship_IsAlive pl1 = false /\ Ship_GetHP pl1 = -20 /\
  touches pl1 c = true /\
  asteroid_ship_collisions r sixtieth pl ([a; b] ++ [c]) =
    (pl1, snd (asteroid_ship_collisions r sixtieth pl [a; b]) ++
          integrate_asteroids r sixtieth [c]).
Proof.
  intros pl a b c r pl1.
  assert (H1 : Forall (fun x => 0 <= Asteroid_GetDamage x) ([a; b] ++ [c])).
  { repeat constructor; discriminate. }
  assert (H2 : Ship_IsAlive pl = (0 <? Ship_GetHP pl)) by reflexivity.
  assert (H3 : Ship_IsAlive pl1 = false) by reflexivity.
  split; [exact H1 | split; [exact H2 | split; [exact H3 |
    split; [reflexivity | split; [reflexivity |]]]]].
  exact (proj2 (proj2 (pass_B_player_health r sixtieth pl [a; b] [c] H1 H2)) H3).
Defined.

Lemma player_hp_never_rises_witness :
  exists w1 w2,
    Run_frames Sample.cosf Sample.sinf Sample.rand_at Sample.RAND_MAX
      Sample.GetRandomValue_at Sample.texture_height 5 sample_inputs
      (Run_init Sample.rand_at Sample.RAND_MAX Sample.texture_height 900 900)
    = Ok w1 /\
    frame Sample.cosf Sample.sinf Sample.rand_at Sample.RAND_MAX
      Sample.GetRandomValue_at Sample.texture_height 5
      (busy_input sixtieth) w1 = Ok w2 /\
    pressed_R (busy_input sixtieth) = false /\
    Ship_GetHP (player w2) <= Ship_GetHP (player w1).
Proof.
  destruct (Run_frames Sample.cosf Sample.sinf Sample.rand_at Sample.RAND_MAX
              Sample.GetRandomValue_at Sample.texture_height 5 sample_inputs
              (Run_init Sample.rand_at Sample.RAND_MAX Sample.texture_height
                 900 900)) as [w1 | |] eqn:Hrun;
    [| vm_compute in Hrun; discriminate ..].
  assert (Hf : exists w2,
             frame Sample.cosf Sample.sinf Sample.rand_at Sample.RAND_MAX
               Sample.GetRandomValue_at Sample.texture_height 5
               (busy_input sixtieth) w1 = Ok w2).
  { assert (Hc := Hrun). vm_compute in Hc. injection Hc as Hc.
    rewrite <- Hc. eexists. vm_compute. reflexivity. }
  destruct Hf as [w2 Hf].
  exists w1, w2. split; [reflexivity | split; [exact Hf | split; [reflexivity |]]].
  exact (player_hp_never_rises _ _ _ _ _ _ _ _ _ _ _ _ _ Hrun Hf
           (or_intror eq_refl)).
Defined.

Lemma restart_within_frame_witness :
  let w := Run_init Sample.rand_at Sample.RAND_MAX Sample.texture_height 900 900 in
  let dead := with_player w (Ship_TakeDamage (player w) 100) in
  let i := restart_input (F32.div (F32.of_int 1) (F32.of_int 18)) true in
  (Ship_IsAlive (player w) = true /\
   frame Sample.cosf Sample.sinf Sample.rand_at Sample.RAND_MAX
     Sample.GetRandomValue_at Sample.texture_height 5 i w =
   frame Sample.cosf Sample.sinf Sample.rand_at Sample.RAND_MAX
     Sample.GetRandomValue_at Sample.texture_height 5 (without_R i) w) /\
  (Ship_IsAlive (player dead) = false /\ pressed_R i = true /\
   exists w',
     frame Sample.cosf Sample.sinf Sample.rand_at Sample.RAND_MAX
       Sample.GetRandomValue_at Sample.texture_height 5 i dead = Ok w' /\
     (length (asteroids w') <= 1)%nat /\
     (length (projectiles w') <= 5)%nat /\
     (down_SPACE i = false -> projectiles w' = []) /\
     currentWeapon w' = weapon_switch i (currentWeapon dead)).
Proof.
  intros w dead i.
  pose proof (restart_within_frame Sample.cosf Sample.sinf Sample.rand_at
                Sample.RAND_MAX Sample.GetRandomValue_at Sample.texture_height
                5 i w) as [Ha _].
  pose proof (restart_within_frame Sample.cosf Sample.sinf Sample.rand_at
                Sample.RAND_MAX Sample.GetRandomValue_at Sample.texture_height
                5 i dead) as [_ Hd].
  split.
  - assert (H : Ship_IsAlive (player w) = true) by reflexivity.
    split; [exact H | exact (Ha H)].
  - assert (H1 : Ship_IsAlive (player dead) = false) by reflexivity.
    assert (H2 : pressed_R i = true) by reflexivity.
    split; [exact H1 | split; [exact H2 |]].
    destruct (frame Sample.cosf Sample.sinf Sample.rand_at Sample.RAND_MAX
                Sample.GetRandomValue_at Sample.texture_height 5 i dead)
      as [w' | |] eqn:Hf; [| vm_compute in Hf; discriminate ..].
    exists w'. split; [reflexivity |]. exact (Hd H1 H2 w' eq_refl).
Defined.

Lemma dead_player_ignores_controls_witness :
  let w := Run_init Sample.rand_at Sample.RAND_MAX Sample.texture_height 900 900 in
  let dead := with_player w (Ship_TakeDamage (player w) 100) in
  let i := busy_input sixtieth in
  Ship_IsAlive (player dead) = false /\ pressed_R i = false /\
  frame Sample.cosf Sample.sinf Sample.rand_at Sample.RAND_MAX
    Sample.GetRandomValue_at Sample.texture_height 0 i dead =
  frame Sample.cosf Sample.sinf Sample.rand_at Sample.RAND_MAX
    Sample.GetRandomValue_at Sample.texture_height 0 (idle_input sixtieth) dead.
Proof.
  intros w dead i.
  assert (H1 : Ship_IsAlive (player dead) = false) by reflexivity.
  assert (H2 : pressed_R i = false) by reflexivity.
  split; [exact H1 | split; [exact H2 |]].
  exact (dead_player_ignores_controls Sample.cosf Sample.sinf Sample.rand_at
           Sample.RAND_MAX Sample.GetRandomValue_at Sample.texture_height
           0 i dead H1 H2).
Defined.

Lemma idle_run_completes_witness :
  let inputs := [idle_input (F32.of_int 1); tab_input sixtieth false;
                 idle_input sixtieth] in
  Forall (fun i => down_SPACE i = false) inputs /\
  exists world,
    Run_frames Sample.cosf Sample.sinf Sample.rand_at Sample.RAND_MAX
      Sample.GetRandomValue_at Sample.texture_height 0 inputs
      (Run_init Sample.rand_at Sample.RAND_MAX Sample.texture_height 900 900)
    = Ok world.
Proof.
  intros inputs.
  assert (H : Forall (fun i => down_SPACE i = false) inputs)
    by (repeat constructor).
  split; [exact H |].
  exact (idle_run_completes Sample.cosf Sample.sinf Sample.rand_at
           Sample.RAND_MAX Sample.GetRandomValue_at Sample.texture_height
           inputs 900 900 H).
Defined.

Lemma still_projectile_never_drifts_witness :
  let p := still_projectile 100 100 150 WeaponType.MINE in
  let r := mkRenderer 900 900 in
  velocity (p_physics p) = mkVector2 F32.zero F32.zero /\
  F32.is_finite sixtieth = true /\
  Projectile_GetPosition (fst (Projectile_Update r p sixtieth)) =
  Projectile_GetPosition p.
Proof.
  intros p r.
  assert (H1 : velocity (p_physics p) = mkVector2 F32.zero F32.zero)
    by reflexivity.
  assert (H2 : F32.is_finite sixtieth = true) by reflexivity.
  split; [exact H1 | split; [exact H2 |]].
  apply (still_projectile_never_drifts r p sixtieth H1 H2); discriminate.
Defined.

Lemma frame_population_growth_witness :
  exists w',
    frame Sample.cosf Sample.sinf Sample.rand_at Sample.RAND_MAX
      Sample.GetRandomValue_at Sample.texture_height 30
      (fire_input (F32.of_int 1))
      (Run_init Sample.rand_at Sample.RAND_MAX Sample.texture_height 900 900)
    = Ok w' /\
    length (asteroids w') = 1%nat /\
    (length (asteroids w') <= 1)%nat /\
    (length (projectiles w') <= 0 + 30)%nat.
Proof.
  destruct (frame Sample.cosf Sample.sinf Sample.rand_at Sample.RAND_MAX
              Sample.GetRandomValue_at Sample.texture_height 30
              (fire_input (F32.of_int 1))
              (Run_init Sample.rand_at Sample.RAND_MAX Sample.texture_height
                 900 900)) as [w' | |] eqn:Hf;
    [| vm_compute in Hf; discriminate ..].
  exists w'. split; [reflexivity | split].
  - assert (Hc := Hf). vm_compute in Hc. injection Hc as Hc.
    rewrite <- Hc. reflexivity.
  - destruct (frame_population_growth _ _ _ _ _ _ _ _ _ _ Hf) as (H1 & H2 & _).
    assert (E : length (asteroids (Run_init Sample.rand_at Sample.RAND_MAX
                                     Sample.texture_height 900 900)) = 0%nat)
      by reflexivity.
    assert (E2 : length (projectiles (Run_init Sample.rand_at Sample.RAND_MAX
                                        Sample.texture_height 900 900)) = 0%nat)
      by reflexivity.
    rewrite E in H1. rewrite E2 in H2. exact (conj H1 H2).
Defined.
